(** * Conway's Game of Life on a canvas pixel buffer

    A shallow embedding of [gameoflife.js].  The program keeps the world in
    the pixel buffer of a 2D canvas: one cell is one RGBA pixel, a cell is
    alive when the red channel of its pixel is [0].  Every [tick] reads the
    canvas into [before], computes every cell's fate into a fresh image
    [after] and puts [after] back on the canvas. *)

From Stdlib Require Import ZArith Lia List QArith.
From stdpp Require Import base option list numbers.

Open Scope Z_scope.

(** ** Typed arrays

    [ImageData.data] is a [Uint8ClampedArray].  Reading an index that is not
    in the array yields [undefined] (here [None]); storing at such an index
    does nothing; a stored integer is clamped to [0..255]. *)

Definition clamp8 (v : Z) : Z := Z.max 0 (Z.min 255 v).

Definition aget (data : list Z) (i : Z) : option Z :=
  if decide (0 ≤ i) then data !! Z.to_nat i else None.

Definition aset (data : list Z) (i v : Z) : list Z :=
  if decide (0 ≤ i) then <[Z.to_nat i := clamp8 v]> data else data.

(** ** Images and the browser state *)

Record ImageData := mkImageData {
  img_width : Z;
  img_height : Z;
  data : list Z
}.

(** The canvas bitmap ([canvas.width = width], [canvas.height = height], so
    only its pixels are kept), the delays of the timers requested through
    [window.setTimeout], and the number of calls made to [Math.random]. *)
Record World := mkWorld {
  canvas : list Z;
  timeouts : list Z;
  rng_calls : nat
}.

(** The two images a [tick] works on.  They are distinct objects:
    [getImageData] and [createImageData] both return a new image. *)
Record Frame := mkFrame {
  frame_before : ImageData;
  frame_after : ImageData
}.

(** [for (var i = 0; i < bound; i++) body] as a state transformer: the body
    runs for [i = 0, 1, ..., bound - 1] in that order. *)
Fixpoint for_upto {S : Type} (n : nat) (body : Z → S → S) (s : S) : S :=
  match n with
  | O => s
  | S k => body (Z.of_nat k) (for_upto k body s)
  end.

Definition for_loop {S : Type} (bound : Z) (body : Z → S → S) (s : S) : S :=
  for_upto (Z.to_nat bound) body s.

(** ** The program *)

(** the colors of living and dead cells (red channel) *)
Definition alive : Z := 0.
Definition dead : Z := 255.

Section Program.

(** The globals [width] and [height] (480 and 250 in the source), and the
    values returned by the successive calls of [Math.random]. *)
Variables width height : Z.
Variable random : nat → Q.

(** [ctx.createImageData(sw, sh)]: a transparent black image; the canvas
    API raises [IndexSizeError] when a side is zero. *)
Definition createImageData (sw sh : Z) : option ImageData :=
  if decide (sw = 0 ∨ sh = 0) then None
  else Some {| img_width := Z.abs sw; img_height := Z.abs sh;
               data := replicate (Z.to_nat (Z.abs sw * Z.abs sh * 4)) 0 |}.

(** [ctx.getImageData(0, 0, width, height)]: a copy of the whole canvas,
    which has exactly these dimensions. *)
Definition getImageData (w : World) : option ImageData :=
  if decide (width = 0 ∨ height = 0) then None
  else Some {| img_width := Z.abs width; img_height := Z.abs height;
               data := canvas w |}.

(** [ctx.putImageData(img, 0, 0)] with an image of the size of the canvas
    replaces the bitmap (all pixels written by the program are opaque, so
    the canvas stores them unchanged). *)
Definition putImageData (img : ImageData) (w : World) : World :=
  {| canvas := data img; timeouts := timeouts w; rng_calls := rng_calls w |}.

Definition setTimeout (delay : Z) (w : World) : World :=
  {| canvas := canvas w; timeouts := timeouts w ++ [delay];
     rng_calls := rng_calls w |}.

(** Is a cell at [x, y] still alive? This answers with a 1 or a 0.

    The index is an integer here.  The source computes it in double
    precision numbers, which gives this integer for the coordinates of
    [exact_index] below; the statements about coordinates far from any
    grid are made for those. *)
Definition cell (before : ImageData) (x y : Z) : Z :=
  match aget (data before) ((x * 4) + (y * width * 4)) with
  | Some v => if decide (v = alive) then 1 else 0
  | None => 0
  end.

Definition neighborsLiving (before : ImageData) (x y : Z) : Z :=
  cell before (x - 1) y +
  cell before (x + 1) y +
  cell before (x + 0) (y + 1) +
  cell before (x + 0) (y - 1) +
  cell before (x + 1) (y + 1) +
  cell before (x + 1) (y - 1) +
  cell before (x - 1) (y + 1) +
  cell before (x - 1) (y - 1).

(** A number used as a condition: every number but [0] is true. *)
Definition truthy (n : Z) : bool := negb (n =? 0).

Definition shouldLive (before : ImageData) (x y : Z) : bool :=
  let self := cell before x y in
  let neighbors := neighborsLiving before x y in
  (truthy self && ((neighbors =? 2) || (neighbors =? 3)))
  || (negb (truthy self) && (neighbors =? 3)).

(** The index is the one of [cell], with the same remark. *)
Definition write (after : ImageData) (x y val : Z) : ImageData :=
  let index := (x * 4) + (y * width * 4) in
  {| img_width := img_width after; img_height := img_height after;
     data := aset (aset (aset (aset (data after)
                    (index + 0) val) (index + 1) 255) (index + 2) 255)
                    (index + 3) 255 |}.

(** The body of the two loops of [tick]: decide from [before], write into
    [after]. *)
Definition tick_body (x y : Z) (fr : Frame) : Frame :=
  let state := shouldLive (frame_before fr) x y in
  {| frame_before := frame_before fr;
     frame_after := write (frame_after fr) x y (if state then alive else dead) |}.

Definition tick_loops (fr : Frame) : Frame :=
  for_loop width (fun x => for_loop height (fun y => tick_body x y)) fr.

(** The generation computed by a [tick] from the image [before] it read:
    the new [after] image once both loops have run. *)
Definition step (before : ImageData) : option ImageData :=
  after ← createImageData width height;
  Some (frame_after (tick_loops {| frame_before := before;
                                   frame_after := after |})).

Definition tick (w : World) : option World :=
  before ← getImageData w;
  after ← step before;
  Some (setTimeout 100 (putImageData after w)).

(** The body of the loops of [seed]; the state is the image and the number
    of random numbers drawn so far. *)
Definition seed_body (x y : Z) (st : ImageData * nat) : ImageData * nat :=
  let r := random (snd st) in
  (write (fst st) x y (if Qlt_le_dec (1 # 2) r then alive else dead),
   S (snd st)).

Definition seed_loops (st : ImageData * nat) : ImageData * nat :=
  for_loop width (fun x => for_loop height (fun y => seed_body x y)) st.

Definition seed (w : World) : option World :=
  after ← createImageData width height;
  let st := seed_loops (after, rng_calls w) in
  Some {| canvas := data (fst st); timeouts := timeouts w;
          rng_calls := snd st |}.

(** The script itself: [seed(); tick();]. *)
Definition main (w : World) : option World :=
  seeded ← seed w;
  tick seeded.

(** A timer fires: the oldest pending timeout is taken off the list and
    its callback runs; the only callback the program registers is [tick].
    With no timer pending nothing runs ([None]). *)
Definition fire (w : World) : option World :=
  match timeouts w with
  | [] => None
  | _ :: pending =>
      tick {| canvas := canvas w; timeouts := pending;
              rng_calls := rng_calls w |}
  end.

(** The script followed by [n] timer events. *)
Fixpoint run (n : nat) (w : World) : option World :=
  match n with
  | O => main w
  | S k => fired ← run k w; fire fired
  end.

(** The four channels of the pixel at [x, y]. *)
Definition pixel (img : ImageData) (x y : Z) : list (option Z) :=
  let index := (x * 4) + (y * width * 4) in
  [aget (data img) (index + 0); aget (data img) (index + 1);
   aget (data img) (index + 2); aget (data img) (index + 3)].

(** An image as [getImageData] returns it for this canvas. *)
Definition grid (g : ImageData) : Prop :=
  img_width g = width ∧ img_height g = height ∧
  Z.of_nat (length (data g)) = width * height * 4.

Definition in_grid (x y : Z) : Prop := 0 ≤ x < width ∧ 0 ≤ y < height.

(** The integers a double precision number holds exactly
    ([Number.MAX_SAFE_INTEGER] is [2^53 - 1]). *)
Definition max_safe_integer : Z := 9007199254740991.

Definition safe_integer (n : Z) : Prop :=
  - max_safe_integer ≤ n ≤ max_safe_integer.

(** The coordinates at which [(x * 4) + (y * width * 4)], and the three
    indices after it, are computed without rounding: the operands and every
    intermediate result are safe integers. *)
Definition exact_index (x y : Z) : Prop :=
  safe_integer x ∧ safe_integer y ∧ safe_integer width
  ∧ safe_integer (x * 4)
  ∧ safe_integer (y * width) ∧ safe_integer (y * width * 4)
  ∧ safe_integer (x * 4 + y * width * 4)
  ∧ safe_integer (x * 4 + y * width * 4 + 3).

(** The red byte the buffer holds for the pixel number [x + y * width],
    which is the pixel of the cell [(x, y)] when that is a cell of the
    grid. *)
Definition red_byte (g : ImageData) (x y : Z) : option Z :=
  data g !! Z.to_nat ((x + y * width) * 4).

End Program.

(** ** Specification-level descriptions of pixel buffers *)

Section Buffers.

Variable width : Z.

(** The buffer obtained from [d0] by writing, for every cell [(x, y)]
    selected by [P], the pixel [(f x y, 255, 255, 255)]. *)
Definition painted (f : Z → Z → Z) (P : Z → Z → bool) (d0 : list Z)
    (j : Z) : option Z :=
  if decide (0 ≤ j < Z.of_nat (length d0)) then
    let x := (j / 4) mod width in
    let y := (j / 4) / width in
    if P x y then Some (if decide (j mod 4 = 0) then clamp8 (f x y) else 255)
    else aget d0 j
  else None.

(** The red channel that encodes a cell state. *)
Definition red_of (live : bool) : Z := if live then alive else dead.

(** The buffer of a [width] x [height] image in which the pixel of every
    cell [(x, y)] is [(red_of (live x y), 255, 255, 255)]. *)
Definition render (height : Z) (live : Z → Z → bool) (j : Z) : option Z :=
  if decide (0 ≤ j < width * height * 4) then
    Some (if decide (j mod 4 = 0)
          then red_of (live ((j / 4) mod width) ((j / 4) / width))
          else 255)
  else None.

(** The decision [seed] takes for the cell [(x, y)] when [n0] random
    numbers were drawn before: the loops draw one number per cell, column
    after column. *)
Definition seed_live (random : nat → Q) (height : Z) (n0 : nat)
    (x y : Z) : bool :=
  if Qlt_le_dec (1 # 2) (random (Z.to_nat (Z.of_nat n0 + x * height + y)))
  then true else false.

(** The eight neighbor offsets. *)
Definition offsets : list (Z * Z) :=
  [(-1, -1); (-1, 0); (-1, 1); (0, -1); (0, 1); (1, -1); (1, 0); (1, 1)].

Definition sum_list (l : list Z) : Z := foldr Z.add 0 l.

(** The image [a] is [d0] with the cells of [P] painted. *)
Definition shows (f : Z → Z → Z) (d0 : list Z) (a : ImageData)
    (P : Z → Z → bool) : Prop :=
  length (data a) = length d0 ∧
  ∀ j, aget (data a) j = painted f P d0 j.

(** The cells [(x, 0) .. (x, n - 1)], and the first [m] columns. *)
Definition column (x : Z) (n : Z) (x' y' : Z) : bool :=
  (x' =? x) && (0 <=? y') && (y' <? n).

Definition columns (height : Z) (m : Z) (x' y' : Z) : bool :=
  (0 <=? x') && (x' <? m) && (0 <=? y') && (y' <? height).

(** Every pixel is cyan [(0, 255, 255, 255)] or white
    [(255, 255, 255, 255)]. *)
Definition two_colors (height : Z) (d : list Z) : Prop :=
  ∀ x y, in_grid width height x y →
    pixel width (mkImageData width height d) x y
      = [Some 0; Some 255; Some 255; Some 255]
    ∨ pixel width (mkImageData width height d) x y
      = [Some 255; Some 255; Some 255; Some 255].

(** What [cell] reads at [(p, q)], a cell of the grid or one of its
    neighbors, in a grid whose cell [(x, y)] is alive when [B x y]: the
    column left of the grid reads the last column one row up, the column
    right of the grid reads the first column one row down. *)
Definition wrapped (height : Z) (B : Z → Z → bool) (p q : Z) : bool :=
  if p =? -1 then (1 <=? q) && B (width - 1) (q - 1)
  else if p =? width then (q <=? height - 2) && B 0 (q + 1)
  else (0 <=? q) && (q <? height) && B p q.

(** The same read in a world with a dead border: off the grid every
    cell is dead. *)
Definition bounded (height : Z) (B : Z → Z → bool) (p q : Z) : bool :=
  (0 <=? p) && (p <? width) && (0 <=? q) && (q <? height) && B p q.

End Buffers.

(** The rule of [shouldLive] over boolean reads [R]. *)
Definition life_rule (R : Z → Z → bool) (x y : Z) : bool :=
  let self := R x y in
  let neighbors :=
    Z.b2z (R (x - 1) y) + Z.b2z (R (x + 1) y) +
    Z.b2z (R x (y + 1)) + Z.b2z (R x (y - 1)) +
    Z.b2z (R (x + 1) (y + 1)) + Z.b2z (R (x + 1) (y - 1)) +
    Z.b2z (R (x - 1) (y + 1)) + Z.b2z (R (x - 1) (y - 1)) in
  (self && ((neighbors =? 2) || (neighbors =? 3)))
  || (negb self && (neighbors =? 3)).

(** The patterns: a horizontal and a vertical line of three cells, and a
    square of four cells with its upper left corner at [(a, b)]. *)
Definition hline (x y : Z) : bool := (y =? 2) && (1 <=? x) && (x <=? 3).
Definition vline (x y : Z) : bool := (x =? 2) && (1 <=? y) && (y <=? 3).
Definition block (a b x y : Z) : bool :=
  (a <=? x) && (x <=? a + 1) && (b <=? y) && (y <=? b + 1).

(** The cells of the last column in the rows 0, 1 and 2, and the cells
    they leave after one step. *)
Definition last_column (width : Z) (x y : Z) : bool :=
  (x =? width - 1) && (0 <=? y) && (y <=? 2).

Definition last_column_next (width : Z) (x y : Z) : bool :=
  ((y =? 1) && ((x =? width - 2) || (x =? width - 1)))
  || ((x =? 0) && (y =? 2)).

(** ** Sample images

    [image_of w h cells] has one cyan or white pixel per listed cell, row
    after row. *)

Definition image_of (w h : Z) (cells : list bool) : ImageData :=
  mkImageData w h (flat_map (λ b : bool, [red_of b; 255; 255; 255]) cells).

#[local] Abbreviation o := false.
#[local] Abbreviation X := true.

(** A 2 x 2 grid whose only living cell is [(1, 0)]. *)
Definition corner_2x2 : ImageData :=
  image_of 2 2 [o; X;
                o; o].

Definition blinker_5x5 : ImageData :=
  image_of 5 5 [o; o; o; o; o;
                o; o; o; o; o;
                o; X; X; X; o;
                o; o; o; o; o;
                o; o; o; o; o].

Definition block_4x4 : ImageData :=
  image_of 4 4 [X; X; o; o;
                X; X; o; o;
                o; o; o; o;
                o; o; o; o].

Definition empty_3x3 : ImageData :=
  image_of 3 3 [o; o; o;
                o; o; o;
                o; o; o].

Definition upright_5x5 : ImageData :=
  image_of 5 5 [o; o; o; o; o;
                o; o; X; o; o;
                o; o; X; o; o;
                o; o; X; o; o;
                o; o; o; o; o].

(** Three living cells in the last column, and the next generation the
    program computes from them: the cell [(0, 2)] is born from the cells
    of the last column. *)
Definition last_column_4x3 : ImageData :=
  image_of 4 3 [o; o; o; X;
                o; o; o; X;
                o; o; o; X].

Definition last_column_next_4x3 : ImageData :=
  image_of 4 3 [o; o; o; o;
                o; o; X; X;
                X; o; o; o].

Definition full_3x3 : ImageData :=
  image_of 3 3 [X; X; X;
                X; X; X;
                X; X; X].

(** The cells of [corner_2x2] in pixels of other colors: only the red
    channel of [(1, 0)] is 0. *)
Definition tinted_corner_2x2 : ImageData :=
  mkImageData 2 2 [7; 1; 2; 3;  0; 0; 0; 0;  200; 9; 9; 9;  1; 1; 1; 1].

(** ** The program at work *)

Example step_blinker : step 5 5 blinker_5x5 = Some upright_5x5.
Proof. reflexivity. Qed.

Example step_upright : step 5 5 upright_5x5 = Some blinker_5x5.
Proof. reflexivity. Qed.

Example step_block : step 4 4 block_4x4 = Some block_4x4.
Proof. reflexivity. Qed.

Example step_last_column :
  step 4 3 last_column_4x3 = Some last_column_next_4x3.
Proof. reflexivity. Qed.

Example cell_left_of_grid : cell 2 corner_2x2 (-1) 1 = 1.
Proof. reflexivity. Qed.

Example tick_schedules_itself :
  timeouts <$> tick 2 2 (mkWorld (data corner_2x2) [] 0) = Some [100].
Proof. reflexivity. Qed.

(** ** Loops *)

Lemma for_upto_preserves {S : Type} (I : S → Prop) body (n : nat) (s : S) :
  (∀ i s, I s → I (body i s)) → I s → I (for_upto n body s).
Proof. intros Hb Hs. induction n as [|n IH]; [done|]. by apply Hb. Qed.

Lemma for_loop_preserves {S : Type} (I : S → Prop) body bound (s : S) :
  (∀ i s, I s → I (body i s)) → I s → I (for_loop bound body s).
Proof. apply for_upto_preserves. Qed.

(** ** Typed-array lemmas *)

Lemma length_aset d i v : length (aset d i v) = length d.
Proof. unfold aset. case_decide; [apply length_insert | done]. Qed.

Lemma aget_aset d i v j :
  aget (aset d i v) j
  = if decide (i = j ∧ 0 ≤ i < Z.of_nat (length d)) then Some (clamp8 v)
    else aget d j.
Proof.
  unfold aget, aset.
  destruct (decide (0 ≤ j)) as [Hj|Hj]; destruct (decide (0 ≤ i)) as [Hi|Hi].
  - destruct (decide (i = j)) as [->|Hne].
    + destruct (decide (j < Z.of_nat (length d))) as [Hlt|Hge].
      * rewrite decide_True by lia. apply list_lookup_insert_eq. lia.
      * rewrite decide_False by lia. by rewrite list_insert_ge by lia.
    + rewrite decide_False by lia. apply list_lookup_insert_ne. lia.
  - by rewrite decide_False by lia.
  - by rewrite decide_False by lia.
  - by rewrite decide_False by lia.
Qed.

Lemma aget_range d j : 0 ≤ j < Z.of_nat (length d) → is_Some (aget d j).
Proof.
  intros H. unfold aget. rewrite decide_True by lia.
  apply lookup_lt_is_Some. lia.
Qed.

Lemma aget_outside d j : ¬ (0 ≤ j < Z.of_nat (length d)) → aget d j = None.
Proof.
  intros H. unfold aget. case_decide; [|done].
  apply lookup_ge_None. lia.
Qed.

Lemma aget_ext (d1 d2 : list Z) : (∀ j, aget d1 j = aget d2 j) → d1 = d2.
Proof.
  intros H. apply list_eq. intros i. specialize (H (Z.of_nat i)).
  unfold aget in H. rewrite !decide_True, Nat2Z.id in H by lia. exact H.
Qed.

(** ** Index arithmetic of the row-major buffer *)

Section Geometry.

Variables width height : Z.
Hypothesis width_pos : 0 < width.

Lemma index_decode x y :
  0 ≤ x < width → (x + y * width) mod width = x ∧ (x + y * width) / width = y.
Proof.
  intros Hx. split.
  - rewrite Z.mod_add by lia. apply Z.mod_small. lia.
  - rewrite Z.div_add by lia. rewrite Z.div_small by lia. lia.
Qed.

Lemma index_quot x y j :
  x * 4 + y * width * 4 ≤ j < x * 4 + y * width * 4 + 4 ↔ j / 4 = x + y * width.
Proof.
  split.
  - intros H. symmetry. apply (Z.div_unique_pos j 4 _ (j - 4 * (x + y * width))); lia.
  - intros H. pose proof (Z.div_mod j 4 ltac:(lia)) as E.
    pose proof (Z.mod_pos_bound j 4 ltac:(lia)). lia.
Qed.

Lemma index_cell j :
  0 ≤ j < width * height * 4 →
  in_grid width height ((j / 4) mod width) ((j / 4) / width).
Proof.
  intros Hj. unfold in_grid.
  pose proof (Z.mod_pos_bound (j / 4) width width_pos).
  assert (0 ≤ j / 4 < height * width) as Hq.
  { split; [apply Z.div_pos; lia | apply Z.div_lt_upper_bound; lia]. }
  split; [lia|]. split.
  - apply Z.div_pos; lia.
  - apply Z.div_lt_upper_bound; lia.
Qed.

Lemma index_same_cell x y j :
  0 ≤ x < width →
  (j / 4) mod width = x ∧ (j / 4) / width = y ↔ j / 4 = x + y * width.
Proof.
  intros Hx. split.
  - intros [Hm Hd]. pose proof (Z.div_mod (j / 4) width ltac:(lia)). lia.
  - intros ->. by apply index_decode.
Qed.

(** What [write] stores, index by index. *)
Lemma aget_write a x y v j :
  aget (data (write width a x y v)) j
  = if decide (0 ≤ j < Z.of_nat (length (data a))
               ∧ x * 4 + y * width * 4 ≤ j < x * 4 + y * width * 4 + 4)
    then Some (if decide (j = x * 4 + y * width * 4) then clamp8 v else 255)
    else aget (data a) j.
Proof.
  unfold write. cbn [data].
  rewrite !aget_aset, !length_aset.
  change (clamp8 255) with 255.
  repeat case_decide; try reflexivity; try (exfalso; lia); f_equal; lia.
Qed.

Lemma length_write a x y v :
  length (data (write width a x y v)) = length (data a).
Proof. unfold write. cbn [data]. by rewrite !length_aset. Qed.

(** One more cell painted. *)
Lemma painted_write f P Q d0 a x y :
  0 ≤ x < width →
  length (data a) = length d0 →
  (∀ j, aget (data a) j = painted width f P d0 j) →
  (∀ x' y', Q x' y' = P x' y' || ((x' =? x) && (y' =? y))) →
  ∀ j, aget (data (write width a x y (f x y))) j = painted width f Q d0 j.
Proof.
  intros Hx Hlen Ha HQ j. rewrite aget_write, Ha, Hlen. unfold painted.
  destruct (decide (0 ≤ j < Z.of_nat (length d0))) as [Hj|Hj].
  - rewrite HQ.
    destruct (decide (x * 4 + y * width * 4 ≤ j < x * 4 + y * width * 4 + 4))
      as [Hin|Hout].
    + rewrite decide_True by done.
      pose proof Hin as Hq. apply index_quot in Hq.
      apply (index_same_cell x y j Hx) in Hq as [-> ->].
      rewrite !Z.eqb_refl, orb_true_r. f_equal.
      apply index_quot in Hin.
      pose proof (Z.div_mod j 4 ltac:(lia)).
      repeat case_decide; try reflexivity; exfalso; lia.
    + rewrite decide_False by tauto.
      assert ((((j / 4) mod width =? x) && ((j / 4) / width =? y)) = false)
        as ->; [|by rewrite orb_false_r].
      apply andb_false_iff.
      destruct (Z.eqb_spec ((j / 4) mod width) x) as [E1|]; [|by left].
      destruct (Z.eqb_spec ((j / 4) / width) y) as [E2|]; [|by right].
      exfalso. apply Hout. apply index_quot.
      by apply (index_same_cell x y j Hx).
  - rewrite decide_False by tauto. reflexivity.
Qed.

End Geometry.

(** ** The two nested loops

    [seed] and [tick] run the same pair of loops; they differ in the state
    they thread and in the value they write.  [Inv x y s] says that [s] is
    a state in which iteration [(x, y)] may start. *)

Section Loops.

Variables width height : Z.
Hypothesis width_pos : 0 < width.
Hypothesis height_pos : 0 < height.

Variable St : Type.
Variable img : St → ImageData.
Variable body : Z → Z → St → St.
Variable f : Z → Z → Z.
Variable Inv : Z → Z → St → Prop.

Hypothesis body_write : ∀ x y s,
  Inv x y s → img (body x y s) = write width (img s) x y (f x y).
Hypothesis body_next : ∀ x y s,
  0 ≤ y < height → Inv x y s → Inv x (y + 1) (body x y s).
Hypothesis next_column : ∀ x s, Inv x height s → Inv (x + 1) 0 s.

Variable d0 : list Z.

#[local] Abbreviation shows s P := (shows width f d0 (img s) P).
#[local] Abbreviation columns := (columns height).

Lemma painted_ext P Q j :
  (∀ x y, P x y = Q x y) → painted width f P d0 j = painted width f Q d0 j.
Proof. intros H. unfold painted. by rewrite H. Qed.

Lemma shows_ext s P Q : (∀ x y, P x y = Q x y) → shows s P → shows s Q.
Proof.
  intros H [Hl Hs]. split; [done|]. intros j. rewrite Hs.
  by apply painted_ext.
Qed.

Lemma inner_loop x P (n : nat) s :
  0 ≤ x < width → Z.of_nat n ≤ height →
  Inv x 0 s → shows s P →
  Inv x (Z.of_nat n) (for_upto n (body x) s)
  ∧ shows (for_upto n (body x) s)
      (λ x' y', P x' y' || column x (Z.of_nat n) x' y').
Proof.
  intros Hx. induction n as [|n IH]; intros Hn HI Hs.
  - split; [done|]. eapply shows_ext; [|exact Hs].
    intros x' y'. unfold column. change (Z.of_nat 0) with 0.
    destruct (P x' y'), (x' =? x), (Z.leb_spec 0 y'), (Z.ltb_spec y' 0);
      simpl; try reflexivity; lia.
  - destruct IH as [HI' [Hl' Hs']]; [lia|done|done|].
    cbn [for_upto]. split.
    + replace (Z.of_nat (S n)) with (Z.of_nat n + 1) by lia.
      apply body_next; [lia|done].
    + split.
      * rewrite (body_write _ _ _ HI'), length_write. done.
      * rewrite (body_write _ _ _ HI').
        apply (painted_write width width_pos f _ _ d0 _ _ _ Hx Hl' Hs').
        intros x' y'. unfold column.
        destruct (P x' y'), (Z.eqb_spec x' x), (Z.eqb_spec y' (Z.of_nat n)),
          (Z.leb_spec 0 y'), (Z.ltb_spec y' (Z.of_nat n)),
          (Z.ltb_spec y' (Z.of_nat (S n))); simpl; try reflexivity; lia.
Qed.

Lemma outer_loop P (m : nat) s :
  Z.of_nat m ≤ width →
  Inv 0 0 s → shows s P →
  let s' := for_upto m (λ x, for_loop height (body x)) s in
  Inv (Z.of_nat m) 0 s'
  ∧ shows s' (λ x' y', P x' y' || columns (Z.of_nat m) x' y').
Proof.
  induction m as [|m IH]; intros Hm HI Hs; cbn zeta.
  - split; [done|]. eapply shows_ext; [|exact Hs].
    intros x' y'. unfold columns. change (Z.of_nat 0) with 0.
    destruct (P x' y'), (Z.leb_spec 0 x'), (Z.ltb_spec x' 0); simpl;
      try reflexivity; lia.
  - destruct IH as [HI' Hs']; [lia|done|done|].
    cbn [for_upto]. unfold for_loop at 1.
    destruct (inner_loop (Z.of_nat m) _ (Z.to_nat height) _
                ltac:(lia) ltac:(lia) HI' Hs') as [HI2 Hs2].
    rewrite Z2Nat.id in HI2, Hs2 by lia. split.
    + replace (Z.of_nat (S m)) with (Z.of_nat m + 1) by lia.
      by apply next_column.
    + eapply shows_ext; [|exact Hs2].
      intros x' y'. unfold columns, column. cbv beta.
      destruct (P x' y'), (Z.eqb_spec x' (Z.of_nat m)), (Z.leb_spec 0 x'),
        (Z.ltb_spec x' (Z.of_nat m)), (Z.ltb_spec x' (Z.of_nat (S m))),
        (0 <=? y'), (y' <? height); simpl; try reflexivity; lia.
Qed.

(** Both loops together paint every pixel of the image. *)
Lemma both_loops s :
  data (img s) = d0 →
  Z.of_nat (length d0) = width * height * 4 →
  Inv 0 0 s →
  let s' := for_loop width (λ x, for_loop height (body x)) s in
  Inv width 0 s'
  ∧ Z.of_nat (length (data (img s'))) = width * height * 4
  ∧ ∀ j, aget (data (img s')) j
         = if decide (0 ≤ j < width * height * 4) then
             Some (if decide (j mod 4 = 0)
                   then clamp8 (f ((j / 4) mod width) ((j / 4) / width))
                   else 255)
           else None.
Proof.
  intros Hd Hlen HI. cbn zeta.
  change (for_loop width (λ x, for_loop height (body x)) s)
    with (for_upto (Z.to_nat width) (λ x, for_loop height (body x)) s).
  destruct (outer_loop (λ _ _, false) (Z.to_nat width) s) as [HI' [Hl' Hs']].
  - lia.
  - done.
  - split; [by rewrite Hd|]. intros j. unfold painted. rewrite Hd.
    case_decide; [done|]. by apply aget_outside.
  - cbn zeta in HI', Hl', Hs'. rewrite Z2Nat.id in HI', Hs' by lia.
    split; [done|]. split; [by rewrite Hl'|].
    intros j. rewrite Hs'. unfold painted. rewrite Hlen.
    case_decide as Hj; [|done].
    destruct (index_cell width height width_pos j Hj) as [Hx Hy].
    unfold columns. cbn [orb].
    destruct (Z.leb_spec 0 ((j / 4) mod width)); [|lia].
    destruct (Z.ltb_spec ((j / 4) mod width) width); [|lia].
    destruct (Z.leb_spec 0 ((j / 4) / width)); [|lia].
    destruct (Z.ltb_spec ((j / 4) / width) height); [|lia].
    reflexivity.
Qed.

End Loops.

(** ** What [step], [tick] and [seed] compute *)

Section Step.

Variables width height : Z.
Hypothesis width_pos : 0 < width.
Hypothesis height_pos : 0 < height.

Lemma createImageData_blank :
  createImageData width height
  = Some (mkImageData width height
            (replicate (Z.to_nat (width * height * 4)) 0)).
Proof.
  unfold createImageData. rewrite decide_False by lia.
  by rewrite !Z.abs_eq by lia.
Qed.

Lemma red_of_byte b : clamp8 (red_of b) = red_of b.
Proof. by destruct b. Qed.

(** The loops of [tick] render the decisions of [shouldLive]. *)
Lemma tick_loops_render fr :
  Z.of_nat (length (data (frame_after fr))) = width * height * 4 →
  frame_before (tick_loops width height fr) = frame_before fr
  ∧ ∀ j, aget (data (frame_after (tick_loops width height fr))) j
         = render width height (shouldLive width (frame_before fr)) j.
Proof.
  intros Hlen.
  destruct (both_loops width height width_pos height_pos Frame frame_after
              (tick_body width)
              (λ x y, red_of (shouldLive width (frame_before fr) x y))
              (λ _ _ s, frame_before s = frame_before fr)
              ltac:(by intros x y s <-) ltac:(by intros) ltac:(by intros)
              (data (frame_after fr)) fr eq_refl Hlen eq_refl)
    as (Hb & _ & Hs).
  split; [exact Hb|]. intros j. unfold tick_loops. rewrite Hs.
  unfold render. case_decide; [|done]. by rewrite red_of_byte.
Qed.

Lemma tick_loops_dims fr :
  img_width (frame_after (tick_loops width height fr))
    = img_width (frame_after fr)
  ∧ img_height (frame_after (tick_loops width height fr))
    = img_height (frame_after fr).
Proof.
  unfold tick_loops.
  apply (for_loop_preserves (λ s,
    img_width (frame_after s) = img_width (frame_after fr)
    ∧ img_height (frame_after s) = img_height (frame_after fr))); [|done].
  intros x s Hs. by apply for_loop_preserves.
Qed.

Lemma step_render b :
  ∃ a, step width height b = Some a
       ∧ img_width a = width ∧ img_height a = height
       ∧ ∀ j, aget (data a) j = render width height (shouldLive width b) j.
Proof.
  unfold step. rewrite createImageData_blank. cbn [mbind option_bind].
  eexists. split; [reflexivity|].
  destruct (tick_loops_dims (mkFrame b (mkImageData width height
              (replicate (Z.to_nat (width * height * 4)) 0)))) as [Hw Hh].
  split; [exact Hw|]. split; [exact Hh|].
  apply (tick_loops_render (mkFrame b _)).
  cbn [frame_after data]. rewrite length_replicate. lia.
Qed.

(** Reading a rendered buffer. *)
Lemma render_length live d :
  (∀ j, aget d j = render width height live j) →
  Z.of_nat (length d) = width * height * 4.
Proof.
  intros H.
  destruct (Z.lt_trichotomy (Z.of_nat (length d)) (width * height * 4))
    as [Hlt|[Heq|Hgt]]; [|done|].
  - specialize (H (Z.of_nat (length d))).
    rewrite aget_outside in H by lia. unfold render in H.
    rewrite decide_True in H by lia. done.
  - specialize (H (width * height * 4)).
    destruct (aget_range d (width * height * 4)) as [v Hv]; [nia|].
    rewrite Hv in H. unfold render in H. rewrite decide_False in H by lia.
    done.
Qed.

Lemma render_pixel live a x y :
  (∀ j, aget (data a) j = render width height live j) →
  in_grid width height x y →
  pixel width a x y
  = [Some (red_of (live x y)); Some 255; Some 255; Some 255].
Proof.
  intros H [Hx Hy]. unfold pixel. rewrite !H. unfold render.
  assert (0 ≤ x * 4 + y * width * 4
          ∧ x * 4 + y * width * 4 + 3 < width * height * 4) as [Hlo Hhi] by nia.
  assert (∀ k, 0 ≤ k < 4 →
    (x * 4 + y * width * 4 + k) / 4 = x + y * width
    ∧ (x * 4 + y * width * 4 + k) mod 4 = k) as Hk.
  { intros k Hk.
    replace (x * 4 + y * width * 4 + k) with (k + (x + y * width) * 4) by lia.
    rewrite Z.div_add, Z.mod_add, Z.div_small, Z.mod_small by lia. lia. }
  destruct (Hk 0 ltac:(lia)) as [-> ->], (Hk 1 ltac:(lia)) as [-> ->],
    (Hk 2 ltac:(lia)) as [-> ->], (Hk 3 ltac:(lia)) as [-> ->].
  destruct (index_decode width width_pos x y Hx) as [-> ->].
  repeat case_decide; first [reflexivity | lia].
Qed.

Lemma cell_pixel a x y r g b al :
  pixel width a x y = [Some r; g; b; al] →
  cell width a x y = if decide (r = alive) then 1 else 0.
Proof.
  unfold pixel, cell. rewrite Z.add_0_r. intros H.
  injection H as ->. reflexivity.
Qed.

Lemma render_cell live a x y :
  (∀ j, aget (data a) j = render width height live j) →
  in_grid width height x y →
  cell width a x y = if live x y then 1 else 0.
Proof.
  intros H Hxy. rewrite (cell_pixel a x y _ _ _ _ (render_pixel _ _ _ _ H Hxy)).
  by destruct (live x y).
Qed.

Lemma cell_bit g x y : cell width g x y = 0 ∨ cell width g x y = 1.
Proof.
  unfold cell. destruct (aget _ _); [case_decide|]; auto.
Qed.

(** Any read, on or off the grid, is the read of the linear index
    [x + y * width] of the buffer. *)
Lemma cell_linear g x y x' y' :
  x + y * width = x' + y' * width → cell width g x y = cell width g x' y'.
Proof.
  intros H. unfold cell.
  by replace (x * 4 + y * width * 4) with (x' * 4 + y' * width * 4) by lia.
Qed.

Lemma cell_wrap g x y :
  0 ≤ x + y * width < width * height →
  in_grid width height ((x + y * width) mod width) ((x + y * width) / width)
  ∧ cell width g x y
    = cell width g ((x + y * width) mod width) ((x + y * width) / width).
Proof.
  intros H. split.
  - unfold in_grid.
    pose proof (Z.mod_pos_bound (x + y * width) width width_pos).
    split; [lia|]. split.
    + apply Z.div_pos; lia.
    + apply Z.div_lt_upper_bound; lia.
  - apply cell_linear.
    pose proof (Z.div_mod (x + y * width) width ltac:(lia)). lia.
Qed.

Lemma cell_outside g x y :
  Z.of_nat (length (data g)) = width * height * 4 →
  ¬ (0 ≤ x + y * width < width * height) →
  cell width g x y = 0.
Proof.
  intros Hlen H. unfold cell. rewrite aget_outside; [done|]. lia.
Qed.

End Step.

(** ** The life rule *)

Lemma shouldLive_rule width g x y :
  shouldLive width g x y = true ↔
    (cell width g x y = 1
     ∧ (neighborsLiving width g x y = 2 ∨ neighborsLiving width g x y = 3))
    ∨ (cell width g x y = 0 ∧ neighborsLiving width g x y = 3).
Proof.
  unfold shouldLive, truthy.
  destruct (cell_bit width g x y) as [-> | ->]; cbn [Z.eqb negb andb orb];
    destruct (Z.eqb_spec (neighborsLiving width g x y) 2),
             (Z.eqb_spec (neighborsLiving width g x y) 3);
    cbn [orb]; split; intros H; try done; try lia; tauto.
Qed.

Lemma neighborsLiving_offsets width g x y :
  neighborsLiving width g x y
  = sum_list (map (λ d, cell width g (x + d.1) (y + d.2)) offsets).
Proof.
  unfold neighborsLiving, offsets, sum_list. cbn [map foldr fst snd].
  rewrite !Z.add_0_r.
  change (x + -1) with (x - 1). change (y + -1) with (y - 1). lia.
Qed.

(** C1: for every grid and every cell [(x, y)] of it, the cell is alive in
    the grid returned by [step] if and only if it is alive in the input and
    has 2 or 3 alive neighbors, or it is dead in the input and has exactly
    3 alive neighbors; the number of alive neighbors is the sum, over the
    eight offsets, of [cell] of the input grid at the offset coordinate. *)
Theorem step_applies_life_rule width height g :
  0 < width → 0 < height →
  ∃ g', step width height g = Some g' ∧
    ∀ x y, in_grid width height x y →
      neighborsLiving width g x y
        = sum_list (map (λ d, cell width g (x + d.1) (y + d.2)) offsets)
      ∧ (cell width g' x y = 1 ↔
           (cell width g x y = 1
            ∧ (neighborsLiving width g x y = 2
               ∨ neighborsLiving width g x y = 3))
           ∨ (cell width g x y = 0 ∧ neighborsLiving width g x y = 3)).
Proof.
  intros Hw Hh.
  destruct (step_render width height Hw Hh g) as (g' & Hstep & _ & _ & Hr).
  exists g'. split; [exact Hstep|]. intros x y Hxy.
  split; [apply neighborsLiving_offsets|].
  rewrite (render_cell width height Hw _ g' x y Hr Hxy).
  rewrite <- shouldLive_rule.
  destruct (shouldLive width g x y); split; intros H; try done; lia.
Qed.

Lemma step_applies_life_rule_witness :
  ∃ g', step 5 5 blinker_5x5 = Some g' ∧ cell 5 g' 2 1 = 1.
Proof.
  destruct (step_applies_life_rule 5 5 blinker_5x5 ltac:(lia) ltac:(lia))
    as (g' & Hstep & H).
  exists g'. split; [exact Hstep|].
  apply (H 2 1); [unfold in_grid; lia|].
  right. split; reflexivity.
Defined.

(** ** Reads off the grid *)

Lemma corner_2x2_grid : grid 2 2 corner_2x2.
Proof. by repeat split. Qed.

Lemma blinker_5x5_grid : grid 5 5 blinker_5x5.
Proof. by repeat split. Qed.

Lemma block_4x4_grid : grid 4 4 block_4x4.
Proof. by repeat split. Qed.

Lemma empty_3x3_grid : grid 3 3 empty_3x3.
Proof. by repeat split. Qed.

(** C2, as the specification states it, fails: on the 2 x 2 grid whose only
    living cell is [(1, 0)], the off-grid read [cell(before, -1, 1)] returns
    1, the state of the in-grid cell [(1, 0)]. *)
Lemma cell_off_grid_not_dead :
  ¬ (∀ width height g x y,
       0 < width → 0 < height → grid width height g →
       ¬ in_grid width height x y → cell width g x y = 0).
Proof.
  intros H.
  specialize (H 2 2 corner_2x2 (-1) 1 ltac:(lia) ltac:(lia)
                corner_2x2_grid).
  assert (cell 2 corner_2x2 (-1) 1 = 1) as E by reflexivity.
  rewrite H in E; [discriminate|]. unfold in_grid. lia.
Qed.

(** What a read returns, in terms of the bytes of the buffer. *)
Lemma cell_red_byte width g x y :
  0 ≤ x + y * width →
  cell width g x y
  = if decide (red_byte width g x y = Some alive) then 1 else 0.
Proof.
  intros H. unfold cell, red_byte, aget.
  replace (x * 4 + y * width * 4) with ((x + y * width) * 4) by lia.
  rewrite decide_True by lia.
  destruct (data g !! Z.to_nat ((x + y * width) * 4)) as [v|].
  - repeat case_decide; first [reflexivity | congruence].
  - by rewrite decide_False.
Qed.

(** C2, amended: for every grid of size at least 1 x 1 and every coordinate
    [(x, y)] outside the grid at which the index is computed without
    rounding, [cell] returns 0 (dead) when the linear index [x + y * width]
    falls outside [0, width * height); when it falls inside, [cell] returns
    the state of the in-grid cell stored at that index,
    [((x + y * width) mod width, (x + y * width) / width)]: 1 when the red
    byte of the pixel of that cell is 0, and 0 otherwise. *)
Theorem cell_off_grid width height g x y :
  0 < width → 0 < height → grid width height g →
  ¬ in_grid width height x y → exact_index width x y →
  (¬ (0 ≤ x + y * width < width * height) → cell width g x y = 0)
  ∧ (0 ≤ x + y * width < width * height →
     in_grid width height ((x + y * width) mod width)
                          ((x + y * width) / width)
     ∧ cell width g x y
       = cell width g ((x + y * width) mod width) ((x + y * width) / width)
     ∧ cell width g x y
       = if decide (red_byte width g ((x + y * width) mod width)
                                     ((x + y * width) / width) = Some alive)
         then 1 else 0).
Proof.
  intros Hw Hh (_ & _ & Hlen) _ _. split.
  - by apply cell_outside.
  - intros Hin. destruct (cell_wrap width height Hw g x y Hin) as [Hg Hc].
    split; [exact Hg|]. split; [exact Hc|].
    rewrite Hc. apply cell_red_byte. destruct Hg as [Hx Hy]. nia.
Qed.

Lemma cell_off_grid_witness :
  cell 2 corner_2x2 (-1) 1 = cell 2 corner_2x2 1 0
  ∧ cell 2 corner_2x2 (-1) 1
    = if decide (red_byte 2 corner_2x2 1 0 = Some alive) then 1 else 0.
Proof.
  destruct (cell_off_grid 2 2 corner_2x2 (-1) 1 ltac:(lia) ltac:(lia)
              corner_2x2_grid) as [_ H].
  - unfold in_grid. lia.
  - unfold exact_index, safe_integer, max_safe_integer. lia.
  - destruct H as (_ & Hcell & Hbyte); [lia|]. split; [exact Hcell|exact Hbyte].
Defined.

(** C9: reads off the grid go through the linearized row-major buffer.  For
    every grid, [cell(before, -1, y)] with [1 ≤ y < height] is the state of
    the in-grid cell [(width - 1, y - 1)], 1 when the red byte of its pixel
    is 0 and 0 otherwise; [cell(before, width, y)] with [0 ≤ y < height - 1]
    is in the same way the state of the in-grid cell [(0, y + 1)]; and a
    read whose linear index falls outside the buffer, such as [(-1, 0)] and
    [(width, height - 1)], returns 0.  A read whose linear index falls
    inside the buffer returns what the buffer holds there, so it is not
    dead in every grid.  The two statements about arbitrary coordinates are
    for the coordinates at which the index is computed without rounding. *)
Theorem cell_wraps_rows width height g :
  1 ≤ width → 1 ≤ height → grid width height g →
  (∀ y, 1 ≤ y < height →
     in_grid width height (width - 1) (y - 1)
     ∧ cell width g (-1) y = cell width g (width - 1) (y - 1)
     ∧ cell width g (-1) y
       = if decide (red_byte width g (width - 1) (y - 1) = Some alive)
         then 1 else 0)
  ∧ (∀ y, 0 ≤ y < height - 1 →
     in_grid width height 0 (y + 1)
     ∧ cell width g width y = cell width g 0 (y + 1)
     ∧ cell width g width y
       = if decide (red_byte width g 0 (y + 1) = Some alive) then 1 else 0)
  ∧ (∀ x y, exact_index width x y →
     ¬ (0 ≤ x * 4 + y * width * 4 < width * height * 4) →
     cell width g x y = 0)
  ∧ cell width g (-1) 0 = 0
  ∧ cell width g width (height - 1) = 0
  ∧ (∀ x y, exact_index width x y →
     0 ≤ x * 4 + y * width * 4 < width * height * 4 →
     cell width g x y
     = (if decide (red_byte width g x y = Some alive) then 1 else 0)
     ∧ ∃ g', grid width height g' ∧ cell width g' x y = 1).
Proof.
  intros Hw Hh (_ & _ & Hlen).
  assert (∀ x y, ¬ (0 ≤ x * 4 + y * width * 4 < width * height * 4) →
            cell width g x y = 0) as Hout.
  { intros x y H. apply (cell_outside width height); [done|lia]. }
  split; [|split; [|split; [|split; [|split]]]].
  - intros y Hy. split; [unfold in_grid; lia|].
    assert (cell width g (-1) y = cell width g (width - 1) (y - 1)) as Hc
      by (apply cell_linear; lia).
    split; [exact Hc|]. rewrite Hc. apply cell_red_byte. nia.
  - intros y Hy. split; [unfold in_grid; lia|].
    assert (cell width g width y = cell width g 0 (y + 1)) as Hc
      by (apply cell_linear; lia).
    split; [exact Hc|]. rewrite Hc. apply cell_red_byte. nia.
  - intros x y _. apply Hout.
  - apply Hout. lia.
  - apply Hout. nia.
  - intros x y _ H. split.
    + apply cell_red_byte. lia.
    + exists (mkImageData width height
                (replicate (Z.to_nat (width * height * 4)) 0)).
      split.
      * repeat split. cbn [data]. rewrite length_replicate. lia.
      * unfold cell, aget. cbn [data]. rewrite decide_True by lia.
        rewrite lookup_replicate_2 by lia. reflexivity.
Qed.

Lemma cell_wraps_rows_witness :
  (cell 2 corner_2x2 (-1) 1 = cell 2 corner_2x2 (2 - 1) (1 - 1)
   ∧ cell 2 corner_2x2 (-1) 1
     = if decide (red_byte 2 corner_2x2 (2 - 1) (1 - 1) = Some alive)
       then 1 else 0)
  ∧ cell 2 corner_2x2 5 3 = 0.
Proof.
  destruct (cell_wraps_rows 2 2 corner_2x2 ltac:(lia) ltac:(lia)
              corner_2x2_grid) as (Hleft & _ & Hout & _).
  split.
  - destruct (Hleft 1 ltac:(lia)) as (_ & Hcell & Hbyte).
    split; [exact Hcell|exact Hbyte].
  - apply Hout; [|lia].
    unfold exact_index, safe_integer, max_safe_integer. lia.
Defined.

(** ** Purity, dimensions, the empty grid *)

Lemma tick_loops_before width height fr :
  frame_before (tick_loops width height fr) = frame_before fr.
Proof.
  unfold tick_loops.
  apply (for_loop_preserves (λ s, frame_before s = frame_before fr)); [|done].
  intros x s Hs. by apply for_loop_preserves.
Qed.

Lemma getImageData_canvas width height w :
  0 < width → 0 < height →
  getImageData width height w = Some (mkImageData width height (canvas w)).
Proof.
  intros Hw Hh. unfold getImageData. rewrite decide_False by lia.
  by rewrite !Z.abs_eq by lia.
Qed.

(** C3: [step] is a pure function of its input.  The loops of a tick leave
    the image [before] they read unchanged; the image they produce depends
    on [before] alone, not on what the image [after] held; and two ticks
    that start from the same canvas put the same pixels on the canvas,
    whatever the rest of the state is. *)
Theorem step_is_pure width height :
  0 < width → 0 < height →
  (∀ fr, frame_before (tick_loops width height fr) = frame_before fr)
  ∧ (∀ b a1 a2,
       Z.of_nat (length (data a1)) = width * height * 4 →
       Z.of_nat (length (data a2)) = width * height * 4 →
       data (frame_after (tick_loops width height (mkFrame b a1)))
       = data (frame_after (tick_loops width height (mkFrame b a2))))
  ∧ (∀ w1 w2, canvas w1 = canvas w2 →
       ∃ c, canvas <$> tick width height w1 = Some c
            ∧ canvas <$> tick width height w2 = Some c).
Proof.
  intros Hw Hh. split; [|split].
  - apply tick_loops_before.
  - intros b a1 a2 H1 H2. apply aget_ext. intros j.
    destruct (tick_loops_render width height Hw Hh (mkFrame b a1) H1)
      as [_ ->].
    destruct (tick_loops_render width height Hw Hh (mkFrame b a2) H2)
      as [_ ->].
    reflexivity.
  - intros w1 w2 Hc. unfold tick.
    rewrite !getImageData_canvas by done. cbn [mbind option_bind].
    rewrite Hc.
    destruct (step_render width height Hw Hh
                (mkImageData width height (canvas w2))) as (a & Ha & _).
    rewrite Ha. exists (data a). split; reflexivity.
Qed.

Lemma step_is_pure_witness :
  frame_before (tick_loops 5 5 (mkFrame blinker_5x5 blinker_5x5))
  = blinker_5x5
  ∧ ∃ c, canvas <$> tick 2 2 (mkWorld (data corner_2x2) [] 0) = Some c
         ∧ canvas <$> tick 2 2 (mkWorld (data corner_2x2) [100] 7) = Some c.
Proof.
  split.
  - apply (step_is_pure 5 5 ltac:(lia) ltac:(lia)).
  - apply (step_is_pure 2 2 ltac:(lia) ltac:(lia)). reflexivity.
Defined.

(** C4: for every grid [g], the grid returned by [step] is a new image with
    the width and the height of [g] (and as many pixels). *)
Theorem step_preserves_dimensions width height g :
  0 < width → 0 < height → grid width height g →
  ∃ g', step width height g = Some g'
        ∧ img_width g' = img_width g
        ∧ img_height g' = img_height g
        ∧ length (data g') = length (data g).
Proof.
  intros Hw Hh (Hgw & Hgh & Hlen).
  destruct (step_render width height Hw Hh g) as (g' & Hstep & Hw' & Hh' & Hr).
  exists g'. split; [exact Hstep|].
  split; [congruence|]. split; [congruence|].
  apply (render_length width height Hw Hh) in Hr. lia.
Qed.

Lemma step_preserves_dimensions_witness :
  ∃ g', step 5 5 blinker_5x5 = Some g'
        ∧ img_width g' = 5 ∧ img_height g' = 5
        ∧ length (data g') = 100%nat.
Proof.
  apply (step_preserves_dimensions 5 5 blinker_5x5); [lia | lia |].
  apply blinker_5x5_grid.
Defined.

(** In a grid all reads, on and off the grid, are reads of grid cells or
    of nothing. *)
Lemma cell_any width height g x y :
  0 < width → Z.of_nat (length (data g)) = width * height * 4 →
  cell width g x y = 0
  ∨ ∃ x' y', in_grid width height x' y'
             ∧ x + y * width = x' + y' * width
             ∧ cell width g x y = cell width g x' y'.
Proof.
  intros Hw Hlen.
  destruct (decide (0 ≤ x + y * width < width * height)) as [Hin|Hout].
  - right. destruct (cell_wrap width height Hw g x y Hin) as [Hg Hc].
    eexists _, _. split; [exact Hg|]. split; [|exact Hc].
    pose proof (Z.div_mod (x + y * width) width ltac:(lia)). lia.
  - left. by apply (cell_outside width height).
Qed.

(** C7: for every grid in which every cell is dead, [step] returns a grid of
    the same size in which every cell is dead. *)
Theorem step_empty_grid width height g :
  0 < width → 0 < height → grid width height g →
  (∀ x y, in_grid width height x y → cell width g x y = 0) →
  ∃ g', step width height g = Some g'
        ∧ grid width height g'
        ∧ ∀ x y, in_grid width height x y → cell width g' x y = 0.
Proof.
  intros Hw Hh (Hgw & Hgh & Hlen) Hdead.
  assert (∀ x y, cell width g x y = 0) as Hall.
  { intros x y.
    destruct (cell_any width height g x y Hw Hlen)
      as [H | (x' & y' & Hin & _ & ->)]; [done | by apply Hdead]. }
  destruct (step_render width height Hw Hh g) as (g' & Hstep & Hw' & Hh' & Hr).
  exists g'. split; [exact Hstep|]. split.
  - split; [done|]. split; [done|]. by apply (render_length width height Hw Hh) in Hr.
  - intros x y Hxy. rewrite (render_cell width height Hw _ g' x y Hr Hxy).
    unfold shouldLive, neighborsLiving. rewrite !Hall. reflexivity.
Qed.

Lemma step_empty_grid_witness :
  ∃ g', step 3 3 empty_3x3 = Some g'
        ∧ grid 3 3 g'
        ∧ ∀ x y, in_grid 3 3 x y → cell 3 g' x y = 0.
Proof.
  apply (step_empty_grid 3 3 empty_3x3); [lia | lia | apply empty_3x3_grid |].
  intros x y [Hx Hy].
  assert (x = 0 ∨ x = 1 ∨ x = 2) as Hx' by lia.
  assert (y = 0 ∨ y = 1 ∨ y = 2) as Hy' by lia.
  destruct Hx' as [-> | [-> | ->]], Hy' as [-> | [-> | ->]]; reflexivity.
Defined.

(** ** Writing pixels *)

Section Writes.

Variables width height : Z.
Hypothesis width_pos : 0 < width.
Hypothesis height_pos : 0 < height.

Lemma pixel_write_same a x y v :
  Z.of_nat (length (data a)) = width * height * 4 →
  in_grid width height x y →
  pixel width (write width a x y v) x y
  = [Some (clamp8 v); Some 255; Some 255; Some 255].
Proof.
  intros Hlen [Hx Hy]. unfold pixel. rewrite !aget_write.
  assert (0 ≤ x * 4 + y * width * 4
          ∧ x * 4 + y * width * 4 + 3 < width * height * 4) as [Hlo Hhi] by nia.
  repeat case_decide; first [reflexivity | lia].
Qed.

Lemma same_index x y x' y' :
  0 ≤ x < width → 0 ≤ x' < width →
  x + y * width = x' + y' * width → x = x' ∧ y = y'.
Proof.
  intros Hx Hx' H.
  destruct (index_decode width width_pos x y Hx) as [E1 E2].
  destruct (index_decode width width_pos x' y' Hx') as [E3 E4].
  rewrite H in E1, E2. lia.
Qed.

Lemma pixel_write_other a x y v x' y' :
  0 ≤ x < width → 0 ≤ x' < width → (x', y') ≠ (x, y) →
  pixel width (write width a x y v) x' y' = pixel width a x' y'.
Proof.
  intros Hx Hx' Hne. unfold pixel. rewrite !aget_write.
  assert (x + y * width ≠ x' + y' * width) as Hidx.
  { intros H. apply (same_index _ _ _ _ Hx Hx') in H as [-> ->]. done. }
  repeat case_decide; first [reflexivity | lia].
Qed.

Lemma write_outside g x y v :
  Z.of_nat (length (data g)) = width * height * 4 →
  ¬ (0 ≤ x + y * width < width * height) →
  write width g x y v = g.
Proof.
  intros Hlen Hout.
  assert (data (write width g x y v) = data g) as Hd.
  { apply aget_ext. intros j. rewrite aget_write.
    rewrite decide_False; [done|]. lia. }
  destruct g as [gw gh gd]. unfold write in *. cbn [data] in *.
  by rewrite Hd.
Qed.

Lemma write_linear g x y x' y' v :
  x + y * width = x' + y' * width →
  write width g x y v = write width g x' y' v.
Proof.
  intros H. unfold write.
  by replace (x * 4 + y * width * 4) with (x' * 4 + y' * width * 4) by lia.
Qed.

Lemma render_two_colors live d :
  (∀ j, aget d j = render width height live j) → two_colors width height d.
Proof.
  intros H x y Hxy.
  rewrite (render_pixel width height width_pos live
             (mkImageData width height d) x y H Hxy).
  destruct (live x y); auto.
Qed.

Variable random : nat → Q.

Lemma seed_render w :
  ∃ w', seed width height random w = Some w'
        ∧ Z.of_nat (rng_calls w') = Z.of_nat (rng_calls w) + width * height
        ∧ timeouts w' = timeouts w
        ∧ ∀ j, aget (canvas w') j
               = render width height
                   (seed_live random height (rng_calls w)) j.
Proof.
  unfold seed. rewrite (createImageData_blank width height) by done.
  cbn [mbind option_bind]. eexists. split; [reflexivity|]. cbn [canvas rng_calls timeouts].
  set (blank := mkImageData width height
                  (replicate (Z.to_nat (width * height * 4)) 0)).
  destruct (both_loops width height width_pos height_pos (ImageData * nat) fst
              (seed_body width random)
              (λ x y, red_of (seed_live random height (rng_calls w) x y))
              (λ x y s, Z.of_nat (snd s)
                        = Z.of_nat (rng_calls w) + x * height + y))
    with (d0 := data blank) (s := (blank, rng_calls w))
    as (Hn & _ & Hs).
  - intros x y s HI. unfold seed_body. cbn [fst]. f_equal.
    unfold seed_live.
    replace (Z.to_nat (Z.of_nat (rng_calls w) + x * height + y))
      with (snd s) by lia.
    by destruct (Qlt_le_dec _ _).
  - intros x y s Hy HI. unfold seed_body. cbn [snd]. lia.
  - intros x s HI. lia.
  - reflexivity.
  - unfold blank. cbn [data]. rewrite length_replicate. lia.
  - cbn [snd]. lia.
  - split; [|split; [done|]].
    + rewrite Z.add_0_r in Hn. exact Hn.
    + intros j. etrans; [apply Hs|]. unfold render.
      case_decide; [|done]. by rewrite red_of_byte.
Qed.

Lemma tick_render w :
  ∃ w', tick width height w = Some w'
        ∧ rng_calls w' = rng_calls w
        ∧ timeouts w' = timeouts w ++ [100]
        ∧ ∀ j, aget (canvas w') j
               = render width height
                   (shouldLive width (mkImageData width height (canvas w))) j.
Proof.
  unfold tick. rewrite getImageData_canvas by done. cbn [mbind option_bind].
  destruct (step_render width height width_pos height_pos
              (mkImageData width height (canvas w))) as (a & Ha & _ & _ & Hr).
  rewrite Ha. eexists. split; [reflexivity|]. by repeat split.
Qed.

End Writes.

(** C10: every pixel written by [write] with one of the two colors has green,
    blue and alpha 255 and red 0 (alive) or 255 (dead); so after [seed] and
    after every [tick], every pixel of the canvas is opaque and is cyan
    [(0, 255, 255, 255)] or white [(255, 255, 255, 255)]. *)
Theorem pixels_cyan_or_white width height random :
  0 < width → 0 < height →
  (∀ a x y val,
     Z.of_nat (length (data a)) = width * height * 4 →
     in_grid width height x y → val = alive ∨ val = dead →
     pixel width (write width a x y val) x y
     = [Some val; Some 255; Some 255; Some 255])
  ∧ (∀ w, ∃ w', seed width height random w = Some w'
                ∧ two_colors width height (canvas w'))
  ∧ (∀ w, ∃ w', tick width height w = Some w'
                ∧ two_colors width height (canvas w')).
Proof.
  intros Hw Hh. split; [|split].
  - intros a x y val Hlen Hxy Hval.
    rewrite (pixel_write_same width height) by done.
    by destruct Hval as [-> | ->].
  - intros w.
    destruct (seed_render width height Hw Hh random w) as (w' & Hs & _ & _ & Hr).
    exists w'. split; [exact Hs|].
    by apply (render_two_colors width height Hw _ _ Hr).
  - intros w.
    destruct (tick_render width height Hw Hh w) as (w' & Hs & _ & _ & Hr).
    exists w'. split; [exact Hs|].
    by apply (render_two_colors width height Hw _ _ Hr).
Qed.

Lemma pixels_cyan_or_white_witness :
  pixel 2 (write 2 corner_2x2 1 1 alive) 1 1
  = [Some 0; Some 255; Some 255; Some 255]
  ∧ (∃ w', seed 2 2 (λ n, Z.of_nat n # 4)%Q (mkWorld [] [] 0) = Some w'
           ∧ two_colors 2 2 (canvas w'))
  ∧ (∃ w', tick 2 2 (mkWorld (data corner_2x2) [] 0) = Some w'
           ∧ two_colors 2 2 (canvas w')).
Proof.
  destruct (pixels_cyan_or_white 2 2 (λ n, Z.of_nat n # 4)%Q
              ltac:(lia) ltac:(lia)) as (Hwrite & Hseed & Htick).
  split; [|split].
  - apply Hwrite; [reflexivity | unfold in_grid; lia | by left].
  - apply Hseed.
  - apply Htick.
Defined.

(** C8, as the specification states it, fails: [write] has no error path,
    and on the 2 x 2 grid whose only living cell is [(1, 0)], writing [dead]
    at the off-grid coordinate [(-1, 1)] kills the in-grid cell [(1, 0)]. *)
Lemma write_off_grid_changes_grid :
  ¬ (∀ width height g x y val,
       0 < width → 0 < height → grid width height g →
       ¬ in_grid width height x y →
       ∀ x' y', in_grid width height x' y' →
         cell width (write width g x y val) x' y' = cell width g x' y').
Proof.
  intros H.
  specialize (H 2 2 corner_2x2 (-1) 1 dead ltac:(lia) ltac:(lia)
                corner_2x2_grid).
  assert (cell 2 (write 2 corner_2x2 (-1) 1 dead) 1 0 = 0) as E0
    by reflexivity.
  assert (cell 2 corner_2x2 1 0 = 1) as E1 by reflexivity.
  rewrite H in E0; [congruence | |]; unfold in_grid; lia.
Qed.

(** C8, amended: [write] never fails.  At coordinates at which the index
    is computed without rounding: for coordinates in the grid it sets
    exactly that cell's pixel, to [(val, 255, 255, 255)] with [val] clamped
    to a byte, and leaves the pixel of every other cell unchanged.  For
    coordinates outside the grid it changes nothing when the linear index
    [x + y * width] falls outside [0, width * height), and otherwise does
    what the write to the in-grid cell
    [((x + y * width) mod width, (x + y * width) / width)] does: it sets the
    pixel of that cell. *)
Theorem write_cells width height g x y val :
  0 < width → 0 < height → grid width height g →
  exact_index width x y →
  grid width height (write width g x y val)
  ∧ (in_grid width height x y →
     pixel width (write width g x y val) x y
     = [Some (clamp8 val); Some 255; Some 255; Some 255]
     ∧ ∀ x' y', in_grid width height x' y' → (x', y') ≠ (x, y) →
         pixel width (write width g x y val) x' y' = pixel width g x' y')
  ∧ (¬ in_grid width height x y →
     ¬ (0 ≤ x + y * width < width * height) →
     write width g x y val = g)
  ∧ (¬ in_grid width height x y →
     0 ≤ x + y * width < width * height →
     in_grid width height ((x + y * width) mod width)
                          ((x + y * width) / width)
     ∧ write width g x y val
       = write width g ((x + y * width) mod width)
                       ((x + y * width) / width) val
     ∧ pixel width (write width g x y val)
             ((x + y * width) mod width) ((x + y * width) / width)
       = [Some (clamp8 val); Some 255; Some 255; Some 255]).
Proof.
  intros Hw Hh (Hgw & Hgh & Hlen) _. split; [|split; [|split]].
  - split; [done|]. split; [done|]. by rewrite length_write.
  - intros Hxy. split.
    + by apply (pixel_write_same width height).
    + intros x' y' [Hx' _] Hne. destruct Hxy as [Hx _].
      by apply pixel_write_other.
  - intros _ Hout. by apply (write_outside width height).
  - intros _ Hin.
    destruct (cell_wrap width height Hw g x y Hin) as [Hg _].
    assert (write width g x y val
            = write width g ((x + y * width) mod width)
                            ((x + y * width) / width) val) as Hwr.
    { apply write_linear.
      pose proof (Z.div_mod (x + y * width) width ltac:(lia)). lia. }
    split; [exact Hg|]. split; [exact Hwr|].
    rewrite Hwr. by apply (pixel_write_same width height).
Qed.

Lemma write_cells_witness :
  write 2 corner_2x2 (-1) 1 dead = write 2 corner_2x2 1 0 dead
  ∧ pixel 2 (write 2 corner_2x2 (-1) 1 dead) 1 0
    = [Some 255; Some 255; Some 255; Some 255].
Proof.
  destruct (write_cells 2 2 corner_2x2 (-1) 1 dead ltac:(lia) ltac:(lia)
              corner_2x2_grid) as (_ & _ & _ & H).
  - unfold exact_index, safe_integer, max_safe_integer. lia.
  - destruct H as (_ & Hwr & Hpx); [unfold in_grid; lia | lia |].
    split; [exact Hwr|exact Hpx].
Defined.

(** ** Patterns *)

Section Patterns.

Variables width height : Z.
Hypothesis width_pos : 0 < width.
Hypothesis height_pos : 0 < height.

Variable g : ImageData.
Hypothesis g_grid : grid width height g.

Lemma cell_of_bool (B : Z → Z → bool) x y :
  (cell width g x y = 1 ↔ B x y = true) →
  cell width g x y = Z.b2z (B x y).
Proof.
  intros H. destruct (cell_bit width g x y) as [E|E], (B x y);
    cbn [Z.b2z]; try done.
  - destruct H as [_ H]. rewrite H in E; done.
  - destruct H as [H _]. by specialize (H E).
Qed.

(** Reads at a cell or at one of its neighbors. *)
Lemma neighbor_read (B : Z → Z → bool) p q :
  (∀ x y, in_grid width height x y → cell width g x y = Z.b2z (B x y)) →
  -1 ≤ p ≤ width → -1 ≤ q ≤ height →
  cell width g p q = Z.b2z (wrapped width height B p q).
Proof.
  destruct g_grid as (_ & _ & Hlen).
  intros HB Hp Hq. unfold wrapped.
  destruct (Z.eqb_spec p (-1)) as [->|Hp1].
  - destruct (Z.leb_spec 1 q); cbn [andb].
    + rewrite <- HB by (unfold in_grid; lia). apply cell_linear. lia.
    + apply (cell_outside width height); [done|nia].
  - destruct (Z.eqb_spec p width) as [->|Hp2].
    + destruct (Z.leb_spec q (height - 2)); cbn [andb].
      * rewrite <- HB by (unfold in_grid; lia). apply cell_linear. lia.
      * apply (cell_outside width height); [done|nia].
    + destruct (Z.leb_spec 0 q), (Z.ltb_spec q height); cbn [andb].
      * apply HB. unfold in_grid. lia.
      * apply (cell_outside width height); [done|nia].
      * apply (cell_outside width height); [done|nia].
      * lia.
Qed.

Lemma truthy_b2z b : truthy (Z.b2z b) = b.
Proof. by destruct b. Qed.

Lemma shouldLive_reads (B : Z → Z → bool) x y :
  (∀ x y, in_grid width height x y → cell width g x y = Z.b2z (B x y)) →
  in_grid width height x y →
  shouldLive width g x y = life_rule (wrapped width height B) x y.
Proof.
  intros HB [Hx Hy]. unfold shouldLive, neighborsLiving, life_rule.
  rewrite !Z.add_0_r.
  rewrite !(neighbor_read B) by (done || lia).
  by rewrite truthy_b2z.
Qed.

End Patterns.

(** Decide the comparisons of a goal one after the other, those of the
    coordinates first: a comparison that the hypotheses settle leaves one
    goal, the others split the grid into regions. *)
Ltac no_reads a :=
  lazymatch a with context [Z.b2z _] => fail | _ => idtac end.

Ltac decide_tests :=
  repeat match goal with
    | |- context [?a =? ?b] =>
        no_reads a; destruct (Z.eqb_spec a b); try lia
    | |- context [?a <=? ?b] =>
        no_reads a; destruct (Z.leb_spec a b); try lia
    | |- context [?a <? ?b] =>
        no_reads a; destruct (Z.ltb_spec a b); try lia
    end; try reflexivity.

Lemma life_hline width height x y :
  5 ≤ width → 5 ≤ height → in_grid width height x y →
  life_rule (wrapped width height hline) x y = vline x y.
Proof.
  intros Hw Hh [Hx Hy]. unfold life_rule, wrapped, hline, vline.
  decide_tests.
Qed.

Lemma life_vline width height x y :
  5 ≤ width → 5 ≤ height → in_grid width height x y →
  life_rule (wrapped width height vline) x y = hline x y.
Proof.
  intros Hw Hh [Hx Hy]. unfold life_rule, wrapped, hline, vline.
  decide_tests.
Qed.

Lemma life_block width height a b x y :
  4 ≤ width → 4 ≤ height →
  0 ≤ a → a + 1 < width → 0 ≤ b → b + 1 < height →
  in_grid width height x y →
  life_rule (wrapped width height (block a b)) x y = block a b x y.
Proof.
  intros Hw Hh Ha Ha' Hb Hb' [Hx Hy]. unfold life_rule, wrapped, block.
  decide_tests.
Qed.

(** ** Images that can be compared pixel by pixel *)

Section Canonical.

Variables width height : Z.
Hypothesis width_pos : 0 < width.
Hypothesis height_pos : 0 < height.

Lemma render_ext live1 live2 j :
  (∀ x y, in_grid width height x y → live1 x y = live2 x y) →
  render width height live1 j = render width height live2 j.
Proof.
  intros H. unfold render. case_decide as Hj; [|done].
  by rewrite (H _ _ (index_cell width height width_pos j Hj)).
Qed.

(** A grid of cyan and white pixels is the rendering of its cell states. *)
Lemma two_colors_render g :
  grid width height g → two_colors width height (data g) →
  ∀ j, aget (data g) j
       = render width height (λ x y, bool_decide (cell width g x y = 1)) j.
Proof.
  intros (_ & _ & Hlen) Hc j. unfold render.
  case_decide as Hj; [|apply aget_outside; lia].
  pose proof (index_cell width height width_pos j Hj) as Hxy.
  set (x := (j / 4) mod width) in *. set (y := (j / 4) / width) in *.
  assert (j = x * 4 + y * width * 4 + j mod 4) as Ej.
  { pose proof (Z.div_mod j 4 ltac:(lia)).
    pose proof (Z.div_mod (j / 4) width ltac:(lia)). subst x y. lia. }
  pose proof (Z.mod_pos_bound j 4 ltac:(lia)) as Hk.
  assert (cell width g x y
          = match aget (data g) (x * 4 + y * width * 4 + 0) with
            | Some v => if decide (v = alive) then 1 else 0
            | None => 0
            end) as Hcell.
  { unfold cell. by rewrite Z.add_0_r. }
  rewrite Hcell.
  destruct (Hc x y Hxy) as [Hp|Hp]; unfold pixel in Hp; cbn [data] in Hp;
    injection Hp as H0 H1 H2 H3; rewrite H0; cbn [decide];
    assert (j mod 4 = 0 ∨ j mod 4 = 1 ∨ j mod 4 = 2 ∨ j mod 4 = 3)
      as [E|[E|[E|E]]] by lia;
    rewrite E in Ej |- *; rewrite Ej; first [exact H0 | exact H1 | exact H2 | exact H3].
Qed.

Lemma same_cells_same_image g1 g2 :
  grid width height g1 → grid width height g2 →
  two_colors width height (data g1) → two_colors width height (data g2) →
  (∀ x y, in_grid width height x y → cell width g1 x y = cell width g2 x y) →
  g1 = g2.
Proof.
  intros Hg1 Hg2 Hc1 Hc2 Hcells.
  assert (data g1 = data g2) as Hd.
  { apply aget_ext. intros j.
    rewrite (two_colors_render g1 Hg1 Hc1), (two_colors_render g2 Hg2 Hc2).
    apply render_ext. intros x y Hxy. by rewrite (Hcells x y Hxy). }
  destruct Hg1 as (Hw1 & Hh1 & _), Hg2 as (Hw2 & Hh2 & _).
  destruct g1, g2. cbn in *. congruence.
Qed.

(** One step from a grid whose cell states are [B]. *)
Lemma step_pattern (B B' : Z → Z → bool) g :
  grid width height g →
  (∀ x y, in_grid width height x y → cell width g x y = Z.b2z (B x y)) →
  (∀ x y, in_grid width height x y →
     life_rule (wrapped width height B) x y = B' x y) →
  ∃ g', step width height g = Some g'
        ∧ grid width height g'
        ∧ two_colors width height (data g')
        ∧ ∀ x y, in_grid width height x y → cell width g' x y = Z.b2z (B' x y).
Proof.
  intros Hg HB Hlife.
  destruct (step_render width height width_pos height_pos g)
    as (g' & Hstep & Hw' & Hh' & Hr).
  exists g'. split; [exact Hstep|]. split; [|split].
  - split; [done|]. split; [done|].
    by apply (render_length width height width_pos height_pos) in Hr.
  - by apply (render_two_colors width height width_pos _ _ Hr).
  - intros x y Hxy.
    rewrite (render_cell width height width_pos _ g' x y Hr Hxy).
    rewrite (shouldLive_reads width height width_pos height_pos g Hg B x y HB Hxy).
    rewrite (Hlife x y Hxy). by destruct (B' x y).
Qed.

End Canonical.

Lemma hline_cells x y :
  hline x y = true ↔ In (x, y) [(1, 2); (2, 2); (3, 2)].
Proof.
  unfold hline. cbn [In]. split.
  - intros H. apply andb_prop in H as [H H3]. apply andb_prop in H as [H1 H2].
    assert (y = 2 ∧ (x = 1 ∨ x = 2 ∨ x = 3)) as [-> [-> | [-> | ->]]] by lia; auto.
  - intros [H|[H|[H|[]]]]; injection H as <- <-; reflexivity.
Qed.

Lemma vline_cells x y :
  vline x y = true ↔ In (x, y) [(2, 1); (2, 2); (2, 3)].
Proof.
  unfold vline. cbn [In]. split.
  - intros H. apply andb_prop in H as [H H3]. apply andb_prop in H as [H1 H2].
    assert (x = 2 ∧ (y = 1 ∨ y = 2 ∨ y = 3)) as [-> [-> | [-> | ->]]] by lia; auto.
  - intros [H|[H|[H|[]]]]; injection H as <- <-; reflexivity.
Qed.

Lemma block_cells a b x y :
  block a b x y = true
  ↔ In (x, y) [(a, b); (a + 1, b); (a, b + 1); (a + 1, b + 1)].
Proof.
  unfold block. cbn [In]. split.
  - intros H. apply andb_prop in H as [H H4]. apply andb_prop in H as [H H3].
    apply andb_prop in H as [H1 H2].
    assert ((x = a ∨ x = a + 1) ∧ (y = b ∨ y = b + 1))
      as [[->| ->] [->| ->]] by lia; auto.
  - intros [H|[H|[H|[H|[]]]]]; injection H as <- <-;
      rewrite !andb_true_iff; repeat split; lia.
Qed.

Lemma cells_iff_b2z width g (B : Z → Z → bool) x y :
  cell width g x y = Z.b2z (B x y) → (cell width g x y = 1 ↔ B x y = true).
Proof. intros ->. by destruct (B x y). Qed.

(** C5: for every grid of size at least 5 x 5 whose living cells are exactly
    the horizontal line [(1,2), (2,2), (3,2)], one step gives the grid whose
    living cells are exactly the vertical line [(2,1), (2,2), (2,3)], and a
    second step gives back the cell states of the original grid; the second
    grid is the original image itself when that image is made of cyan and
    white pixels, as every image on the canvas is. *)
Theorem blinker_oscillates width height g :
  5 ≤ width → 5 ≤ height → grid width height g →
  (∀ x y, in_grid width height x y →
     (cell width g x y = 1 ↔ In (x, y) [(1, 2); (2, 2); (3, 2)])) →
  ∃ g1 g2,
    step width height g = Some g1
    ∧ step width height g1 = Some g2
    ∧ (∀ x y, in_grid width height x y →
         (cell width g1 x y = 1 ↔ In (x, y) [(2, 1); (2, 2); (2, 3)]))
    ∧ (∀ x y, in_grid width height x y →
         cell width g2 x y = cell width g x y)
    ∧ (two_colors width height (data g) → g2 = g).
Proof.
  intros Hw Hh Hg Hline.
  assert (0 < width) as Hw0 by lia. assert (0 < height) as Hh0 by lia.
  assert (∀ x y, in_grid width height x y →
            cell width g x y = Z.b2z (hline x y)) as HB.
  { intros x y Hxy. apply (cell_of_bool width). rewrite hline_cells.
    by apply Hline. }
  destruct (step_pattern width height Hw0 Hh0 hline vline g Hg HB)
    as (g1 & Hs1 & Hg1 & Hc1 & HB1).
  { intros x y Hxy. by apply life_hline. }
  destruct (step_pattern width height Hw0 Hh0 vline hline g1 Hg1 HB1)
    as (g2 & Hs2 & Hg2 & Hc2 & HB2).
  { intros x y Hxy. by apply life_vline. }
  exists g1, g2. split; [exact Hs1|]. split; [exact Hs2|].
  split; [|split].
  - intros x y Hxy. rewrite <- vline_cells.
    apply cells_iff_b2z. by apply HB1.
  - intros x y Hxy. by rewrite HB, HB2.
  - intros Hc.
    apply (same_cells_same_image width height Hw0 g2 g Hg2 Hg Hc2 Hc).
    intros x y Hxy. by rewrite HB, HB2.
Qed.

Lemma blinker_oscillates_witness :
  ∃ g1 g2, step 5 5 blinker_5x5 = Some g1
           ∧ step 5 5 g1 = Some g2
           ∧ g2 = blinker_5x5.
Proof.
  destruct (blinker_oscillates 5 5 blinker_5x5 ltac:(lia) ltac:(lia)
              blinker_5x5_grid) as (g1 & g2 & Hs1 & Hs2 & _ & _ & Heq).
  - intros x y [Hx Hy]. rewrite <- hline_cells.
    apply cells_iff_b2z.
    assert (x = 0 ∨ x = 1 ∨ x = 2 ∨ x = 3 ∨ x = 4) as Cx by lia.
    assert (y = 0 ∨ y = 1 ∨ y = 2 ∨ y = 3 ∨ y = 4) as Cy by lia.
    destruct Cx as [->|[->|[->|[->| ->]]]],
             Cy as [->|[->|[->|[->| ->]]]]; reflexivity.
  - exists g1, g2. split; [exact Hs1|]. split; [exact Hs2|].
    apply Heq. intros x y [Hx Hy].
    assert (x = 0 ∨ x = 1 ∨ x = 2 ∨ x = 3 ∨ x = 4) as Cx by lia.
    assert (y = 0 ∨ y = 1 ∨ y = 2 ∨ y = 3 ∨ y = 4) as Cy by lia.
    destruct Cx as [->|[->|[->|[->| ->]]]],
             Cy as [->|[->|[->|[->| ->]]]];
      first [left; reflexivity | right; reflexivity].
Defined.

(** C6: for every grid of size at least 4 x 4 whose living cells are exactly
    the four cells of a 2 x 2 square, the grid is a fixed point of [step]:
    the step gives back the same cell states, and the same image when the
    image is made of cyan and white pixels, as every image on the canvas
    is. *)
Theorem block_is_still width height g a b :
  4 ≤ width → 4 ≤ height → grid width height g →
  0 ≤ a → a + 1 < width → 0 ≤ b → b + 1 < height →
  (∀ x y, in_grid width height x y →
     (cell width g x y = 1
      ↔ In (x, y) [(a, b); (a + 1, b); (a, b + 1); (a + 1, b + 1)])) →
  ∃ g', step width height g = Some g'
        ∧ (∀ x y, in_grid width height x y →
             cell width g' x y = cell width g x y)
        ∧ (two_colors width height (data g) → g' = g).
Proof.
  intros Hw Hh Hg Ha Ha' Hb Hb' Hblock.
  assert (0 < width) as Hw0 by lia. assert (0 < height) as Hh0 by lia.
  assert (∀ x y, in_grid width height x y →
            cell width g x y = Z.b2z (block a b x y)) as HB.
  { intros x y Hxy. apply (cell_of_bool width). rewrite block_cells.
    by apply Hblock. }
  destruct (step_pattern width height Hw0 Hh0 (block a b) (block a b) g Hg HB)
    as (g' & Hs & Hg' & Hc' & HB').
  { intros x y Hxy. by apply life_block. }
  exists g'. split; [exact Hs|]. split.
  - intros x y Hxy. by rewrite HB, HB'.
  - intros Hc.
    apply (same_cells_same_image width height Hw0 g' g Hg' Hg Hc' Hc).
    intros x y Hxy. by rewrite HB, HB'.
Qed.

Lemma block_is_still_witness :
  ∃ g', step 4 4 block_4x4 = Some g' ∧ g' = block_4x4.
Proof.
  destruct (block_is_still 4 4 block_4x4 0 0 ltac:(lia) ltac:(lia)
              block_4x4_grid ltac:(lia) ltac:(lia) ltac:(lia) ltac:(lia))
    as (g' & Hs & _ & Heq).
  - intros x y [Hx Hy]. rewrite <- block_cells.
    apply cells_iff_b2z.
    assert (x = 0 ∨ x = 1 ∨ x = 2 ∨ x = 3) as Cx by lia.
    assert (y = 0 ∨ y = 1 ∨ y = 2 ∨ y = 3) as Cy by lia.
    destruct Cx as [->|[->|[->| ->]]], Cy as [->|[->|[->| ->]]]; reflexivity.
  - exists g'. split; [exact Hs|].
    apply Heq. intros x y [Hx Hy].
    assert (x = 0 ∨ x = 1 ∨ x = 2 ∨ x = 3) as Cx by lia.
    assert (y = 0 ∨ y = 1 ∨ y = 2 ∨ y = 3) as Cy by lia.
    destruct Cx as [->|[->|[->| ->]]], Cy as [->|[->|[->| ->]]];
      first [left; reflexivity | right; reflexivity].
Defined.

(** ** Further properties of the program *)

(** X1: [seed] draws exactly one random number per cell, column after
    column, and the cell [(x, y)] is alive exactly when its number is above
    one half; the image replaces the whole canvas, whatever the canvas
    held, and no timer is touched. *)
Theorem seed_cells width height random w :
  0 < width → 0 < height →
  ∃ w', seed width height random w = Some w'
        ∧ Z.of_nat (rng_calls w') = Z.of_nat (rng_calls w) + width * height
        ∧ timeouts w' = timeouts w
        ∧ Z.of_nat (length (canvas w')) = width * height * 4
        ∧ ∀ x y, in_grid width height x y →
            (cell width (mkImageData width height (canvas w')) x y = 1
             ↔ (1 # 2 < random (Z.to_nat (Z.of_nat (rng_calls w)
                                            + x * height + y)))%Q).
Proof.
  intros Hw Hh.
  destruct (seed_render width height Hw Hh random w)
    as (w' & Hs & Hn & Ht & Hr).
  exists w'. split; [exact Hs|]. split; [exact Hn|]. split; [exact Ht|].
  split; [by apply (render_length width height Hw Hh) in Hr|].
  intros x y Hxy.
  rewrite (render_cell width height Hw _ (mkImageData width height (canvas w'))
             x y Hr Hxy).
  unfold seed_live. destruct (Qlt_le_dec _ _) as [Hlt|Hle].
  - by split.
  - split; [done|]. intros Hlt. exfalso. by apply (Qlt_not_le _ _ Hlt).
Qed.

Lemma seed_cells_witness :
  ∃ w', seed 2 2 (λ n, Z.of_nat n # 4)%Q (mkWorld (data corner_2x2) [] 0)
        = Some w'
        ∧ Z.of_nat (rng_calls w') = Z.of_nat 0 + 2 * 2
        ∧ cell 2 (mkImageData 2 2 (canvas w')) 1 1 = 1.
Proof.
  destruct (seed_cells 2 2 (λ n, Z.of_nat n # 4)%Q
              (mkWorld (data corner_2x2) [] 0) ltac:(lia) ltac:(lia))
    as (w' & Hs & Hn & _ & _ & Hc).
  exists w'. split; [exact Hs|]. split; [exact Hn|].
  apply (Hc 1 1); [unfold in_grid; lia | reflexivity].
Defined.

(** X2: whatever the image and the coordinates, on or off the grid,
    [neighborsLiving] is a number between 0 and 8. *)
Theorem neighborsLiving_bounds width g x y :
  0 ≤ neighborsLiving width g x y ≤ 8.
Proof.
  unfold neighborsLiving.
  pose proof (cell_bit width g (x - 1) y).
  pose proof (cell_bit width g (x + 1) y).
  pose proof (cell_bit width g (x + 0) (y + 1)).
  pose proof (cell_bit width g (x + 0) (y - 1)).
  pose proof (cell_bit width g (x + 1) (y + 1)).
  pose proof (cell_bit width g (x + 1) (y - 1)).
  pose proof (cell_bit width g (x - 1) (y + 1)).
  pose proof (cell_bit width g (x - 1) (y - 1)).
  lia.
Qed.

(** X3: reading back what [write] stored.  After [write(after, x, y, val)]
    at a cell of the grid, [cell] finds that cell alive exactly when
    [val <= 0] (the array clamps the value, and only a red channel of 0 is
    alive), and every read at another linear index, on or off the grid, at
    coordinates at which the index is computed without rounding, is
    unchanged. *)
Theorem write_then_cell width height g x y val :
  0 < width → 0 < height →
  Z.of_nat (length (data g)) = width * height * 4 →
  in_grid width height x y →
  (cell width (write width g x y val) x y = 1 ↔ val ≤ 0)
  ∧ ∀ p q, exact_index width p q → p + q * width ≠ x + y * width →
      cell width (write width g x y val) p q = cell width g p q.
Proof.
  intros Hw Hh Hlen Hxy. split.
  - rewrite (cell_pixel width _ x y (clamp8 val) (Some 255) (Some 255)
               (Some 255)) by (by apply (pixel_write_same width height)).
    unfold clamp8, alive. case_decide; split; intros; try done; lia.
  - intros p q _ Hne. unfold cell. rewrite aget_write.
    rewrite decide_False; [done|]. lia.
Qed.

Lemma write_then_cell_witness :
  (cell 2 (write 2 corner_2x2 0 1 (-3)) 0 1 = 1 ↔ -3 ≤ 0)
  ∧ cell 2 (write 2 corner_2x2 0 1 (-3)) 1 0 = cell 2 corner_2x2 1 0.
Proof.
  destruct (write_then_cell 2 2 corner_2x2 0 1 (-3) ltac:(lia) ltac:(lia)
              eq_refl ltac:(unfold in_grid; lia)) as [Hsame Hother].
  split; [exact Hsame|]. apply Hother; [|lia].
  unfold exact_index, safe_integer, max_safe_integer. lia.
Defined.

Lemma image_eq (g1 g2 : ImageData) :
  img_width g1 = img_width g2 → img_height g1 = img_height g2 →
  (∀ j, aget (data g1) j = aget (data g2) j) → g1 = g2.
Proof.
  intros Hw Hh Hd. apply aget_ext in Hd.
  destruct g1, g2. cbn in *. congruence.
Qed.

(** X4: writes compose as stores do.  Of two writes at the same
    coordinates the last one wins; and two writes at different linear
    indices, on or off the grid, at coordinates at which the index is
    computed without rounding, can be swapped. *)
Theorem write_write width g x y val val' x' y' :
  write width (write width g x y val) x y val' = write width g x y val'
  ∧ (exact_index width x y → exact_index width x' y' →
     x + y * width ≠ x' + y' * width →
     write width (write width g x y val) x' y' val'
     = write width (write width g x' y' val') x y val).
Proof.
  split.
  - apply image_eq; [done|done|]. intros j.
    rewrite !aget_write, !length_write.
    repeat case_decide; first [reflexivity | lia].
  - intros _ _ Hne. apply image_eq; [done|done|]. intros j.
    rewrite !aget_write, !length_write.
    repeat case_decide; first [reflexivity | lia].
Qed.

Lemma write_write_witness :
  write 2 (write 2 corner_2x2 0 0 alive) 1 1 dead
  = write 2 (write 2 corner_2x2 1 1 dead) 0 0 alive.
Proof.
  apply (write_write 2 corner_2x2 0 0 alive dead 1 1);
    [| | lia]; unfold exact_index, safe_integer, max_safe_integer; lia.
Defined.

(** X5: in the image [createImageData] returns, every pixel is
    transparent black, so its red channel is 0 and [cell] finds every cell
    of the grid alive: the image [tick] starts to fill is a full grid, not
    an empty one. *)
Theorem blank_image_alive width height :
  0 < width → 0 < height →
  ∃ a, createImageData width height = Some a
       ∧ grid width height a
       ∧ ∀ x y, in_grid width height x y →
           pixel width a x y = [Some 0; Some 0; Some 0; Some 0]
           ∧ cell width a x y = 1.
Proof.
  intros Hw Hh. rewrite createImageData_blank by done.
  eexists. split; [reflexivity|]. split.
  - split; [done|]. split; [done|]. cbn [data].
    rewrite length_replicate. lia.
  - intros x y [Hx Hy].
    assert (0 ≤ x * 4 + y * width * 4
            ∧ x * 4 + y * width * 4 + 3 < width * height * 4) as [Hlo Hhi] by nia.
    assert (∀ k, 0 ≤ k < 4 →
              aget (replicate (Z.to_nat (width * height * 4)) 0)
                   (x * 4 + y * width * 4 + k) = Some 0) as Hk.
    { intros k Hk. unfold aget. rewrite decide_True by lia.
      apply lookup_replicate_2. lia. }
    assert (pixel width (mkImageData width height
              (replicate (Z.to_nat (width * height * 4)) 0)) x y
            = [Some 0; Some 0; Some 0; Some 0]) as Hp.
    { unfold pixel. cbn [data]. by rewrite !Hk by lia. }
    split; [exact Hp|]. by rewrite (cell_pixel width _ x y _ _ _ _ Hp).
Qed.

Lemma blank_image_alive_witness :
  ∃ a, createImageData 2 2 = Some a ∧ cell 2 a 1 1 = 1.
Proof.
  destruct (blank_image_alive 2 2 ltac:(lia) ltac:(lia)) as (a & Ha & _ & Hc).
  exists a. split; [exact Ha|]. apply (Hc 1 1). unfold in_grid. lia.
Defined.

Lemma for_upto_rel {S1 S2 : Type} (R : S1 → S2 → Prop) body1 body2
    (n : nat) (s1 : S1) (s2 : S2) :
  (∀ i s1 s2, R s1 s2 → R (body1 i s1) (body2 i s2)) →
  R s1 s2 → R (for_upto n body1 s1) (for_upto n body2 s2).
Proof. intros Hb Hs. induction n as [|n IH]; [done|]. by apply Hb. Qed.

Lemma cell_red_only width g1 g2 :
  (∀ i, aget (data g1) (i * 4) = Some alive
        ↔ aget (data g2) (i * 4) = Some alive) →
  ∀ x y, cell width g1 x y = cell width g2 x y.
Proof.
  intros H x y. unfold cell.
  replace (x * 4 + y * width * 4) with ((x + y * width) * 4) by lia.
  specialize (H (x + y * width)).
  destruct (aget (data g1) _) as [v1|], (aget (data g2) _) as [v2|];
    repeat case_decide; subst; try reflexivity; exfalso.
  - destruct H as [H _]. specialize (H eq_refl). congruence.
  - destruct H as [_ H]. specialize (H eq_refl). congruence.
  - destruct H as [H _]. specialize (H eq_refl). congruence.
  - destruct H as [_ H]. specialize (H eq_refl). congruence.
Qed.

(** X6: a step reads nothing of an image but which red channels are 0.
    Two images that agree on that, whatever their green, blue and alpha
    channels and their other red values, have the same next generation,
    pixel for pixel. *)
Theorem step_reads_red_only width height g1 g2 :
  (∀ i, aget (data g1) (i * 4) = Some alive
        ↔ aget (data g2) (i * 4) = Some alive) →
  step width height g1 = step width height g2.
Proof.
  intros H. pose proof (cell_red_only width g1 g2 H) as Hcell.
  assert (∀ x y, shouldLive width g1 x y = shouldLive width g2 x y) as Hlive.
  { intros x y. unfold shouldLive, neighborsLiving. by rewrite !Hcell. }
  unfold step. destruct (createImageData width height) as [a|]; [|done].
  cbn [mbind option_bind]. f_equal.
  apply (for_upto_rel (λ s1 s2, frame_before s1 = g1 ∧ frame_before s2 = g2
                                ∧ frame_after s1 = frame_after s2));
    [|done].
  intros x s1 s2 Hs.
  apply (for_upto_rel (λ s1 s2, frame_before s1 = g1 ∧ frame_before s2 = g2
                                ∧ frame_after s1 = frame_after s2));
    [|done].
  intros y t1 t2 (Hb1 & Hb2 & Ha). unfold tick_body. cbn [frame_before frame_after].
  rewrite Hb1, Hb2, Ha, Hlive. done.
Qed.

Lemma step_reads_red_only_witness :
  step 2 2 corner_2x2 = step 2 2 tinted_corner_2x2.
Proof.
  apply step_reads_red_only. intros i.
  destruct (decide (i < 0)) as [Hneg|Hpos].
  - unfold aget. by rewrite !decide_False by lia.
  - destruct (decide (4 ≤ i)) as [Hbig|Hsmall].
    + rewrite !aget_outside; [done | cbn; lia | cbn; lia].
    + assert (i = 0 ∨ i = 1 ∨ i = 2 ∨ i = 3) as [->|[->|[->| ->]]] by lia;
        done.
Defined.

Lemma life_full width height x y :
  2 ≤ width → 2 ≤ height → in_grid width height x y →
  life_rule (wrapped width height (λ _ _, true)) x y = false.
Proof.
  intros Hw Hh [Hx Hy]. unfold life_rule, wrapped.
  decide_tests.
Qed.

Lemma neighbors_full width height x y :
  2 ≤ width → 2 ≤ height → in_grid width height x y →
  4 ≤ Z.b2z (wrapped width height (λ _ _, true) (x - 1) y)
      + Z.b2z (wrapped width height (λ _ _, true) (x + 1) y)
      + Z.b2z (wrapped width height (λ _ _, true) x (y + 1))
      + Z.b2z (wrapped width height (λ _ _, true) x (y - 1))
      + Z.b2z (wrapped width height (λ _ _, true) (x + 1) (y + 1))
      + Z.b2z (wrapped width height (λ _ _, true) (x + 1) (y - 1))
      + Z.b2z (wrapped width height (λ _ _, true) (x - 1) (y + 1))
      + Z.b2z (wrapped width height (λ _ _, true) (x - 1) (y - 1)).
Proof.
  intros Hw Hh [Hx Hy]. unfold wrapped.
  repeat match goal with
    | |- context [?a =? ?b] => destruct (Z.eqb_spec a b); try lia
    | |- context [?a <=? ?b] => destruct (Z.leb_spec a b); try lia
    | |- context [?a <? ?b] => destruct (Z.ltb_spec a b); try lia
    end; cbn [andb Z.b2z]; lia.
Qed.

Lemma neighborsLiving_reads width height g (B : Z → Z → bool) x y :
  0 < width → 0 < height → grid width height g →
  (∀ x y, in_grid width height x y → cell width g x y = Z.b2z (B x y)) →
  in_grid width height x y →
  neighborsLiving width g x y
  = Z.b2z (wrapped width height B (x - 1) y)
    + Z.b2z (wrapped width height B (x + 1) y)
    + Z.b2z (wrapped width height B x (y + 1))
    + Z.b2z (wrapped width height B x (y - 1))
    + Z.b2z (wrapped width height B (x + 1) (y + 1))
    + Z.b2z (wrapped width height B (x + 1) (y - 1))
    + Z.b2z (wrapped width height B (x - 1) (y + 1))
    + Z.b2z (wrapped width height B (x - 1) (y - 1)).
Proof.
  intros Hw Hh Hg HB [Hx Hy]. unfold neighborsLiving. rewrite !Z.add_0_r.
  by rewrite !(neighbor_read width height Hw Hh g Hg B) by (done || lia).
Qed.

(** X7: a full grid dies out in one step.  In every grid of size at least
    2 x 2 in which all cells are alive, every cell has at least four living
    neighbors, the corners too, so the next generation is empty. *)
Theorem full_grid_dies width height g :
  2 ≤ width → 2 ≤ height → grid width height g →
  (∀ x y, in_grid width height x y → cell width g x y = 1) →
  ∃ g', step width height g = Some g'
        ∧ ∀ x y, in_grid width height x y →
            4 ≤ neighborsLiving width g x y ∧ cell width g' x y = 0.
Proof.
  intros Hw Hh Hg Hfull.
  assert (0 < width) as Hw0 by lia. assert (0 < height) as Hh0 by lia.
  destruct (step_pattern width height Hw0 Hh0 (λ _ _, true) (λ _ _, false)
              g Hg Hfull) as (g' & Hs & _ & _ & Hdead).
  { intros x y Hxy. by apply life_full. }
  exists g'. split; [exact Hs|]. intros x y Hxy.
  split; [|by apply Hdead].
  rewrite (neighborsLiving_reads width height g (λ _ _, true) x y) by done.
  by apply neighbors_full.
Qed.

Lemma full_grid_dies_witness :
  ∃ g', step 3 3 full_3x3 = Some g'
        ∧ 4 ≤ neighborsLiving 3 full_3x3 0 0 ∧ cell 3 g' 0 0 = 0.
Proof.
  destruct (full_grid_dies 3 3 full_3x3 ltac:(lia) ltac:(lia)) as (g' & Hs & H).
  - by repeat split.
  - intros x y [Hx Hy].
    assert (x = 0 ∨ x = 1 ∨ x = 2) as Cx by lia.
    assert (y = 0 ∨ y = 1 ∨ y = 2) as Cy by lia.
    destruct Cx as [->|[->| ->]], Cy as [->|[->| ->]]; reflexivity.
  - exists g'. split; [exact Hs|]. apply (H 0 0). unfold in_grid. lia.
Defined.

Lemma life_rule_ext (R R' : Z → Z → bool) x y :
  (∀ p q, x - 1 ≤ p ≤ x + 1 → y - 1 ≤ q ≤ y + 1 → R p q = R' p q) →
  life_rule R x y = life_rule R' x y.
Proof.
  intros H. unfold life_rule. by rewrite !H by lia.
Qed.

Lemma wrapped_bounded width height (B : Z → Z → bool) p q :
  0 < width →
  (∀ y, 0 ≤ y < height → B 0 y = false ∧ B (width - 1) y = false) →
  -1 ≤ p ≤ width → -1 ≤ q ≤ height →
  wrapped width height B p q = bounded width height B p q.
Proof.
  intros Hw Hmargin Hp Hq. unfold wrapped, bounded.
  destruct (Z.eqb_spec p (-1)) as [->|Hp1].
  - cbn [Z.leb andb]. destruct (Z.leb_spec 1 q); [|done].
    destruct (Hmargin (q - 1)) as [_ ->]; [lia|done].
  - destruct (Z.eqb_spec p width) as [->|Hp2].
    + destruct (Z.ltb_spec width width); [lia|].
      rewrite andb_false_r. cbn [andb].
      destruct (Z.leb_spec q (height - 2)); [|done].
      destruct (Hmargin (q + 1)) as [-> _]; [lia|done].
    + destruct (Z.leb_spec 0 p); [|lia].
      destruct (Z.ltb_spec p width); [|lia]. reflexivity.
Qed.

(** X8: the edges only matter when the first or the last column is
    inhabited.  In a grid whose first and last columns are dead, every
    read at a neighbor coordinate off the grid returns 0, and the next
    generation is the one of a world with a dead border: each cell follows
    the rule over its neighbors in the grid alone. *)
Theorem dead_margins_bounded width height g :
  0 < width → 0 < height → grid width height g →
  (∀ y, 0 ≤ y < height →
     cell width g 0 y = 0 ∧ cell width g (width - 1) y = 0) →
  (∀ p q, -1 ≤ p ≤ width → -1 ≤ q ≤ height →
     ¬ in_grid width height p q → cell width g p q = 0)
  ∧ ∃ g', step width height g = Some g'
          ∧ ∀ x y, in_grid width height x y →
              cell width g' x y
              = Z.b2z (life_rule
                         (bounded width height
                            (λ p q, bool_decide (cell width g p q = 1)))
                         x y).
Proof.
  intros Hw Hh Hg Hmargin.
  set (B := λ p q, bool_decide (cell width g p q = 1)).
  assert (∀ x y, cell width g x y = Z.b2z (B x y)) as HB.
  { intros x y. unfold B.
    destruct (cell_bit width g x y) as [E|E]; rewrite E; done. }
  assert (∀ y, 0 ≤ y < height → B 0 y = false ∧ B (width - 1) y = false)
    as HmB.
  { intros y Hy. destruct (Hmargin y Hy) as [E1 E2]. unfold B.
    by rewrite E1, E2. }
  split.
  - intros p q Hp Hq Hout.
    rewrite (neighbor_read width height Hw Hh g Hg B p q) by done.
    rewrite (wrapped_bounded width height B p q) by done.
    unfold bounded, in_grid in *.
    destruct (Z.leb_spec 0 p), (Z.ltb_spec p width), (Z.leb_spec 0 q),
      (Z.ltb_spec q height); cbn [andb Z.b2z]; try reflexivity. lia.
  - destruct (step_pattern width height Hw Hh B
                (life_rule (bounded width height B)) g Hg)
      as (g' & Hs & _ & _ & Hc); [done| |].
    + intros x y [Hx Hy]. apply life_rule_ext. intros p q Hp Hq.
      apply wrapped_bounded; [done|done|lia|lia].
    + exists g'. by split.
Qed.

Lemma dead_margins_bounded_witness :
  cell 5 blinker_5x5 (-1) 3 = 0
  ∧ ∃ g', step 5 5 blinker_5x5 = Some g'
          ∧ cell 5 g' 2 1
            = Z.b2z (life_rule
                       (bounded 5 5
                          (λ p q, bool_decide (cell 5 blinker_5x5 p q = 1)))
                       2 1).
Proof.
  destruct (dead_margins_bounded 5 5 blinker_5x5 ltac:(lia) ltac:(lia)
              blinker_5x5_grid) as [Hread (g' & Hs & Hc)].
  - intros y Hy.
    assert (y = 0 ∨ y = 1 ∨ y = 2 ∨ y = 3 ∨ y = 4)
      as [->|[->|[->|[->| ->]]]] by lia; by split.
  - split.
    + apply Hread; unfold in_grid; lia.
    + exists g'. split; [exact Hs|]. apply Hc. unfold in_grid. lia.
Defined.

(** X9: the animation keeps going and keeps its shape.  After the script
    and any number of timer events, started with no timer pending, exactly
    one timer is pending, with a delay of 100; the only random numbers
    drawn are the [width * height] numbers of [seed]; and the canvas is a
    full grid of cyan and white pixels. *)
Theorem animation_invariant width height random n w :
  0 < width → 0 < height → timeouts w = [] →
  ∃ w', run width height random n w = Some w'
        ∧ timeouts w' = [100]
        ∧ Z.of_nat (rng_calls w') = Z.of_nat (rng_calls w) + width * height
        ∧ Z.of_nat (length (canvas w')) = width * height * 4
        ∧ two_colors width height (canvas w').
Proof.
  intros Hw Hh Hnone. induction n as [|n IH].
  - cbn [run]. unfold main.
    destruct (seed_render width height Hw Hh random w)
      as (w1 & Hs & Hn & Ht & _).
    rewrite Hs. cbn [mbind option_bind].
    destruct (tick_render width height Hw Hh w1) as (w2 & Hs2 & Hn2 & Ht2 & Hr).
    exists w2. split; [exact Hs2|].
    split; [by rewrite Ht2, Ht, Hnone|].
    split; [by rewrite Hn2|].
    split; [by apply (render_length width height Hw Hh) in Hr|].
    by apply (render_two_colors width height Hw _ _ Hr).
  - destruct IH as (w1 & Hrun & Ht & Hn & _ & _).
    cbn [run]. rewrite Hrun. cbn [mbind option_bind].
    unfold fire. rewrite Ht.
    destruct (tick_render width height Hw Hh
                (mkWorld (canvas w1) [] (rng_calls w1)))
      as (w2 & Hs2 & Hn2 & Ht2 & Hr).
    exists w2. split; [exact Hs2|].
    split; [exact Ht2|].
    split; [by rewrite Hn2|].
    split; [by apply (render_length width height Hw Hh) in Hr|].
    by apply (render_two_colors width height Hw _ _ Hr).
Qed.

Lemma animation_invariant_witness :
  ∃ w', run 2 2 (λ n, Z.of_nat n # 4)%Q 3 (mkWorld [] [] 0) = Some w'
        ∧ timeouts w' = [100]
        ∧ Z.of_nat (rng_calls w') = Z.of_nat 0 + 2 * 2
        ∧ Z.of_nat (length (canvas w')) = 2 * 2 * 4
        ∧ two_colors 2 2 (canvas w').
Proof.
  apply (animation_invariant 2 2 (λ n, Z.of_nat n # 4)%Q 3 (mkWorld [] [] 0));
    [lia | lia | reflexivity].
Defined.

Lemma life_last_column width height x y :
  4 ≤ width → 3 ≤ height → in_grid width height x y →
  life_rule (wrapped width height (last_column width)) x y
  = last_column_next width x y.
Proof.
  intros Hw Hh [Hx Hy].
  unfold life_rule, wrapped, last_column, last_column_next.
  decide_tests.
Qed.

(** X10: a pattern at the right edge reaches the left edge one row down.
    In every grid of size at least 4 x 3 whose living cells are exactly the
    three cells of the last column in the rows 0, 1 and 2, the next
    generation is alive exactly at the two cells [(width - 2, 1)] and
    [(width - 1, 1)] and at the cell [(0, 2)] of the first column. *)
Theorem last_column_reaches_first width height g :
  4 ≤ width → 3 ≤ height → grid width height g →
  (∀ x y, in_grid width height x y →
     (cell width g x y = 1
      ↔ In (x, y) [(width - 1, 0); (width - 1, 1); (width - 1, 2)])) →
  ∃ g', step width height g = Some g'
        ∧ ∀ x y, in_grid width height x y →
            (cell width g' x y = 1
             ↔ In (x, y) [(width - 2, 1); (width - 1, 1); (0, 2)]).
Proof.
  intros Hw Hh Hg Hcol.
  assert (0 < width) as Hw0 by lia. assert (0 < height) as Hh0 by lia.
  assert (∀ x y, in_grid width height x y →
            cell width g x y = Z.b2z (last_column width x y)) as HB.
  { intros x y Hxy. apply (cell_of_bool width). rewrite (Hcol x y Hxy).
    unfold last_column. cbn [In]. split.
    - intros [H|[H|[H|[]]]]; injection H as <- <-;
        rewrite !andb_true_iff; repeat split; lia.
    - intros H. apply andb_prop in H as [H H3].
      apply andb_prop in H as [H1 H2].
      assert (x = width - 1 ∧ (y = 0 ∨ y = 1 ∨ y = 2))
        as [-> [-> | [-> | ->]]] by lia; auto. }
  destruct (step_pattern width height Hw0 Hh0 (last_column width)
              (last_column_next width) g Hg HB) as (g' & Hs & _ & _ & HB').
  { intros x y Hxy. by apply life_last_column. }
  exists g'. split; [exact Hs|]. intros x y Hxy.
  rewrite (cells_iff_b2z width g' (last_column_next width) x y (HB' x y Hxy)).
  unfold last_column_next. cbn [In]. split.
  - intros H. apply orb_prop in H as [H|H].
    + apply andb_prop in H as [H1 H2]. apply orb_prop in H2 as [H2|H2].
      * assert (x = width - 2 ∧ y = 1) as [-> ->] by lia. auto.
      * assert (x = width - 1 ∧ y = 1) as [-> ->] by lia. auto.
    + apply andb_prop in H as [H1 H2].
      assert (x = 0 ∧ y = 2) as [-> ->] by lia. auto.
  - intros [H|[H|[H|[]]]]; injection H as <- <-.
    + rewrite !Z.eqb_refl. reflexivity.
    + rewrite !Z.eqb_refl, orb_true_r. reflexivity.
    + cbn [Z.eqb andb orb]. apply orb_true_r.
Qed.

Lemma last_column_reaches_first_witness :
  ∃ g', step 4 3 last_column_4x3 = Some g' ∧ cell 4 g' 0 2 = 1.
Proof.
  destruct (last_column_reaches_first 4 3 last_column_4x3
              ltac:(lia) ltac:(lia)) as (g' & Hs & Hc).
  - by repeat split.
  - intros x y [Hx Hy].
    assert (x = 0 ∨ x = 1 ∨ x = 2 ∨ x = 3) as Cx by lia.
    assert (y = 0 ∨ y = 1 ∨ y = 2) as Cy by lia.
    destruct Cx as [->|[->|[->| ->]]], Cy as [->|[->| ->]]; cbn [In];
      split; intros H; try done;
      repeat (destruct H as [H|H]; [done|]); try done;
      auto.
  - exists g'. split; [exact Hs|].
    apply (Hc 0 2); [unfold in_grid; lia|]. cbn [In]. auto.
Defined.
